(** * bedrock_integration.py: prompt construction, response extraction and
      the fallback boundary

    A shallow embedding of [src/bedrock_integration.py].  Python values are
    modelled by the inductive [pyval] (the values [json.loads] produces, floats
    left out), Python exceptions by the error side of [result], and the two
    [try ... except Exception] blocks by [try_except].  [print] calls write to
    the log only and are not part of the model. *)

From stdpp Require Import gmap strings list fin_maps pretty sorting.
From Stdlib Require Import Ascii.
From Stdlib Require QArith_base.

Local Open Scope nat_scope.
Set Warnings "-register-all".

(** ** Python values *)

(** A Python [str] is modelled by a Rocq string whose characters stand for the
    code points below 256.  A [dict] with string keys is an association list in
    insertion order, read with the first binding of a key. *)
Inductive pyval : Type :=
  | VNone : pyval
  | VBool : bool → pyval
  | VInt : Z → pyval
  | VStr : string → pyval
  | VList : list pyval → pyval
  | VDict : list (string * pyval) → pyval.

(** Instances of [Exception], the class both handlers of the module catch. *)
Inductive exn : Type :=
  | AttributeError
  | TypeError
  | KeyError
  | ClientError (msg : string).

Inductive result (A : Type) : Type :=
  | Ok (a : A)
  | Raise (e : exn).
Arguments Ok {A} a.
Arguments Raise {A} e.

#[global] Instance result_ret : MRet result := λ A a, Ok a.
#[global] Instance result_bind : MBind result := λ A B f m,
  match m with
  | Ok a => f a
  | Raise e => Raise e
  end.

(** [try: body except Exception as e: handler]. *)
Definition try_except {A} (body : result A) (handler : exn → result A) : result A :=
  match body with
  | Ok a => Ok a
  | Raise e => handler e
  end.

(** [mapM] over the error monad: the first exception aborts the traversal. *)
Fixpoint result_mapM {A B} (f : A → result B) (l : list A) : result (list B) :=
  match l with
  | [] => Ok []
  | x :: l' => y ← f x; ys ← result_mapM f l'; Ok (y :: ys)
  end.

(** ** Dictionaries *)

Fixpoint alist_lookup {V} (key : string) (d : list (string * V)) : option V :=
  match d with
  | [] => None
  | (k, v) :: d' => if decide (k = key) then Some v else alist_lookup key d'
  end.

(** [obj.get(key, dflt)]: only a dict has the method. *)
Definition py_get (obj : pyval) (key : string) (dflt : pyval) : result pyval :=
  match obj with
  | VDict d => Ok (default dflt (alist_lookup key d))
  | _ => Raise AttributeError
  end.

(** Values with a [__hash__]: lists and dicts have none. *)
Definition hashable (v : pyval) : bool :=
  match v with
  | VList _ | VDict _ => false
  | _ => true
  end.

(** [==] between hashable values, as a dict compares keys: [True == 1] and
    [False == 0]. *)
Definition py_eqb (a b : pyval) : bool :=
  match a, b with
  | VNone, VNone => true
  | VBool x, VBool y => bool_decide (x = y)
  | VBool x, VInt n | VInt n, VBool x => bool_decide (n = if x then 1%Z else 0%Z)
  | VInt n, VInt m => bool_decide (n = m)
  | VStr s, VStr t => bool_decide (s = t)
  | _, _ => false
  end.

(** [key in d] for a dict with string keys. *)
Definition py_in {V} (key : pyval) (d : gmap string V) : result bool :=
  match key with
  | VStr s => Ok (bool_decide (is_Some (d !! s)))
  | VNone | VBool _ | VInt _ => Ok false
  | VList _ | VDict _ => Raise TypeError
  end.

(** [d.get(key, dflt)] for a dict with string keys. *)
Definition py_dict_get {V} (d : gmap string V) (key : pyval) (dflt : V) : result V :=
  match key with
  | VStr s => Ok (default dflt (d !! s))
  | VNone | VBool _ | VInt _ => Ok dflt
  | VList _ | VDict _ => Raise TypeError
  end.

(** ** Strings *)

(** [str.isspace] on one character, for the code points below 256. *)
Definition py_isspace (c : ascii) : bool :=
  let n := nat_of_ascii c in
  ((9 <=? n) && (n <=? 13)) || ((28 <=? n) && (n <=? 32)) || (n =? 133) || (n =? 160).

Fixpoint lstrip (s : string) : string :=
  match s with
  | EmptyString => EmptyString
  | String c s' => if py_isspace c then lstrip s' else s
  end.

Fixpoint rstrip (s : string) : string :=
  match s with
  | EmptyString => EmptyString
  | String c s' =>
      match rstrip s' with
      | EmptyString => if py_isspace c then EmptyString else String c EmptyString
      | r => String c r
      end
  end.

(** [s.strip()] *)
Definition strip (s : string) : string := rstrip (lstrip s).

Fixpoint all_space (s : string) : bool :=
  match s with
  | EmptyString => true
  | String c s' => py_isspace c && all_space s'
  end.

Fixpoint last_char (s : string) : option ascii :=
  match s with
  | EmptyString => None
  | String c EmptyString => Some c
  | String _ s' => last_char s'
  end.

Definition first_char (s : string) : option ascii :=
  match s with
  | EmptyString => None
  | String c _ => Some c
  end.

Definition newline : string := String (ascii_of_nat 10) EmptyString.

(** ** The fallback narrative *)

Definition generate_fallback_narrative : string :=
  "# AWS Access Review Report" +:+ newline +:+ newline +:+
  "## Executive Summary" +:+ newline +:+ newline +:+
  "Due to technical limitations, a detailed AI analysis could not be generated. " +:+
  "Please refer to the CSV report for a complete list of findings." +:+ newline +:+ newline +:+
  "## Key Recommendations" +:+ newline +:+ newline +:+
  "1. **High Priority:** Review all findings marked as Critical or High priority first" +:+ newline +:+
  "2. **Medium Priority:** Address Medium priority findings as part of regular maintenance" +:+ newline +:+
  "3. **Low Priority:** Consider Low priority findings for long-term security improvements" +:+ newline +:+
  "4. **Ongoing:** Maintain regular security reviews and monitoring" +:+ newline +:+ newline +:+
  "## Next Steps" +:+ newline +:+ newline +:+
  "For detailed findings and specific recommendations, please consult the attached CSV" +:+
  " report. Consider scheduling a follow-up security review once the highest priority items" +:+
  " have been addressed." +:+ newline +:+ newline +:+
  "---" +:+ newline +:+
  "This report was generated by the AWS Access Review Tool. For questions or assistance, " +:+
  "please contact your security team.".

(** ** Response extraction *)

(** [for part in content_parts]: the sequence a [for] loop walks.  A list gives
    its items, a str its characters, a dict its keys; nothing else is
    iterable. *)
Definition py_iter (v : pyval) : result (list pyval) :=
  match v with
  | VList l => Ok l
  | VStr s => Ok ((λ c, VStr (String c EmptyString)) <$> String.list_ascii_of_string s)
  | VDict d => Ok ((λ kv, VStr kv.1) <$> d)
  | VNone | VBool _ | VInt _ => Raise TypeError
  end.

(** [narrative += x] with [narrative] a str: [x] has to be a str as well. *)
Definition str_iadd (narrative : string) (x : pyval) : result string :=
  match x with
  | VStr t => Ok (narrative +:+ t)
  | _ => Raise TypeError
  end.

(** The body of the loop over the content parts, with the accumulator. *)
Fixpoint concat_text_parts (narrative : string) (parts : list pyval) : result string :=
  match parts with
  | [] => Ok narrative
  | part :: rest =>
      ty ← py_get part "type" VNone;
      if py_eqb ty (VStr "text") then
        text ← py_get part "text" (VStr EmptyString);
        narrative' ← str_iadd narrative text;
        concat_text_parts narrative' rest
      else concat_text_parts narrative rest
  end.

Definition extract_narrative_claude (response : pyval) : result string :=
  try_except
    (content_parts ← py_get response "content" (VList []);
     parts ← py_iter content_parts;
     narrative ← concat_text_parts EmptyString parts;
     Ok (strip narrative))
    (λ _, Ok generate_fallback_narrative).

(** ** [str()] and [repr()] of values, as the f-strings of the prompt use them *)

Definition hex_digit (n : nat) : ascii :=
  ascii_of_nat (if n <? 10 then 48 + n else 87 + n).

(** Code points below 256 that [repr] writes as they are. *)
Definition py_isprintable (c : ascii) : bool :=
  let n := nat_of_ascii c in
  negb ((n <? 32) || ((127 <=? n) && (n <=? 160)) || (n =? 173)).

Fixpoint string_mem (c : ascii) (s : string) : bool :=
  match s with
  | EmptyString => false
  | String c' s' => bool_decide (c = c') || string_mem c s'
  end.

Definition repr_char (quote c : ascii) : string :=
  let n := nat_of_ascii c in
  if bool_decide (c = quote) || (n =? 92) then String (ascii_of_nat 92) (String c EmptyString)
  else if n =? 9 then String (ascii_of_nat 92) "t"
  else if n =? 10 then String (ascii_of_nat 92) "n"
  else if n =? 13 then String (ascii_of_nat 92) "r"
  else if py_isprintable c then String c EmptyString
  else String (ascii_of_nat 92)
         (String "x" (String (hex_digit (n / 16)) (String (hex_digit (n mod 16)) EmptyString))).

Definition double_quote : ascii := ascii_of_nat 34.

Fixpoint repr_chars (quote : ascii) (s : string) : string :=
  match s with
  | EmptyString => EmptyString
  | String c s' => repr_char quote c +:+ repr_chars quote s'
  end.

(** [repr(s)] of a str: single quotes, unless the text has one and no double
    quote. *)
Definition str_repr (s : string) : string :=
  let quote := if string_mem "'" s && negb (string_mem double_quote s)
               then double_quote else "'"%char in
  String quote (repr_chars quote s +:+ String quote EmptyString).

Fixpoint py_repr (v : pyval) : string :=
  match v with
  | VNone => "None"
  | VBool b => if b then "True" else "False"
  | VInt n => pretty n
  | VStr s => str_repr s
  | VList l => "[" +:+ String.concat ", " (map py_repr l) +:+ "]"
  | VDict d =>
      "{" +:+ String.concat ", " (map (λ kv, str_repr kv.1 +:+ ": " +:+ py_repr kv.2) d) +:+ "}"
  end.

(** [str(v)], what [f"{v}"] inserts. *)
Definition py_str (v : pyval) : string :=
  match v with
  | VStr s => s
  | _ => py_repr v
  end.

(** ** Step 1 of [prepare_prompt]: counts by severity *)

Definition severity_counts_init : gmap string nat :=
  {[ "Critical" := 0; "High" := 0; "Medium" := 0; "Low" := 0; "Informational" := 0 ]}.

(** [d[key] += 1] *)
Definition py_incr (d : gmap string nat) (key : pyval) : result (gmap string nat) :=
  match key with
  | VStr s =>
      match d !! s with
      | Some n => Ok (<[s := n + 1]> d)
      | None => Raise KeyError
      end
  | VNone | VBool _ | VInt _ => Raise KeyError
  | VList _ | VDict _ => Raise TypeError
  end.

(** [d[key]] with a str key *)
Definition py_getitem (d : gmap string nat) (key : string) : result nat :=
  match d !! key with
  | Some n => Ok n
  | None => Raise KeyError
  end.

Fixpoint count_severities (findings : list pyval) (severity_counts : gmap string nat)
  : result (gmap string nat) :=
  match findings with
  | [] => Ok severity_counts
  | finding :: rest =>
      sev ← py_get finding "severity" VNone;
      present ← py_in sev severity_counts;
      if (present : bool) then
        severity_counts' ← py_incr severity_counts sev;
        count_severities rest severity_counts'
      else count_severities rest severity_counts
  end.

(** ** Step 2: groups by category *)

(** [findings_by_category]: a dict whose keys are arbitrary hashable values, in
    insertion order. *)
Abbreviation groups := (list (pyval * list pyval)).

Fixpoint groups_mem (key : pyval) (g : groups) : bool :=
  match g with
  | [] => false
  | (k, _) :: g' => py_eqb k key || groups_mem key g'
  end.

(** [key not in findings_by_category] hashes the key first. *)
Definition groups_contains (key : pyval) (g : groups) : result bool :=
  if hashable key then Ok (groups_mem key g) else Raise TypeError.

(** [findings_by_category[key].append(finding)] *)
Fixpoint groups_append (key finding : pyval) (g : groups) : groups :=
  match g with
  | [] => []
  | (k, fs) :: g' =>
      if py_eqb k key then (k, fs ++ [finding]) :: g'
      else (k, fs) :: groups_append key finding g'
  end.

Fixpoint group_findings (findings : list pyval) (findings_by_category : groups)
  : result groups :=
  match findings with
  | [] => Ok findings_by_category
  | finding :: rest =>
      category ← py_get finding "category" (VStr "Other");
      present ← groups_contains category findings_by_category;
      let g := if (present : bool) then findings_by_category
               else findings_by_category ++ [(category, [])] in
      group_findings rest (groups_append category finding g)
  end.

(** ** Step 3: the lines of the summary *)

Definition severity_order : gmap string nat :=
  {[ "Critical" := 0; "High" := 1; "Medium" := 2; "Low" := 3; "Informational" := 4 ]}.

(** The [key=] lambda of the sort. *)
Definition sort_key (x : pyval) : result nat :=
  sev ← py_get x "severity" (VStr "Low");
  py_dict_get severity_order sev 999.

(** A stable sort on the first component: [sorted] is stable, and a stable sort
    has one result only. *)
Fixpoint insert_by_key {A} (x : nat * A) (l : list (nat * A)) : list (nat * A) :=
  match l with
  | [] => [x]
  | y :: l' => if x.1 <=? y.1 then x :: y :: l' else y :: insert_by_key x l'
  end.

Fixpoint stable_sort {A} (l : list (nat * A)) : list (nat * A) :=
  match l with
  | [] => []
  | x :: l' => insert_by_key x (stable_sort l')
  end.

(** [sorted(l, key=key)]: the keys are computed first, in list order. *)
Definition py_sorted (key : pyval → result nat) (l : list pyval) : result (list pyval) :=
  keys ← result_mapM key l;
  Ok ((stable_sort (zip keys l)).*2).

(** One entry of [findings_summary], before it is formatted. *)
Inductive summary_line : Type :=
  | CategoryHeader (category : pyval)
  | FindingLine (finding : pyval)
  | MoreLine (n : nat) (category : pyval).

Definition category_lines (category : pyval) (category_findings : list pyval)
  : result (list summary_line) :=
  sorted_findings ← py_sorted sort_key category_findings;
  Ok (CategoryHeader category
      :: (FindingLine <$> take 5 sorted_findings)
      ++ (if 5 <? length category_findings
          then [MoreLine (length category_findings - 5) category] else [])).

Fixpoint summary_lines (g : groups) : result (list summary_line) :=
  match g with
  | [] => Ok []
  | (category, category_findings) :: g' =>
      ls ← category_lines category category_findings;
      rest ← summary_lines g';
      Ok (ls ++ rest)
  end.

(** The f-string of each entry. *)
Definition line_text (l : summary_line) : result string :=
  match l with
  | CategoryHeader category => Ok (newline +:+ "Category: " +:+ py_str category)
  | FindingLine finding =>
      severity ← py_get finding "severity" VNone;
      description ← py_get finding "description" VNone;
      resource_type ← py_get finding "resource_type" VNone;
      resource_id ← py_get finding "resource_id" VNone;
      Ok ("  - " +:+ py_str severity +:+ ": " +:+ py_str description +:+ " (" +:+
          py_str resource_type +:+ ": " +:+ py_str resource_id +:+ ")")
  | MoreLine n category =>
      Ok ("  - ... and " +:+ pretty n +:+ " more " +:+ py_str category +:+ " findings")
  end.

Definition findings_summary (g : groups) : result (list string) :=
  ls ← summary_lines g;
  result_mapM line_text ls.

(** ** Step 4: the prompt *)

(** The f-string of the prompt. *)
Definition format_prompt (total critical high medium low informational : nat)
    (summary : list string) : string :=
  "<findings>" +:+ newline +:+
  "# AWS Security Findings Summary" +:+ newline +:+ newline +:+
  "Total findings: " +:+ pretty total +:+ newline +:+
  "- Critical: " +:+ pretty critical +:+ newline +:+
  "- High: " +:+ pretty high +:+ newline +:+
  "- Medium: " +:+ pretty medium +:+ newline +:+
  "- Low: " +:+ pretty low +:+ newline +:+
  "- Informational: " +:+ pretty informational +:+ newline +:+ newline +:+
  "## Findings by Category:" +:+ newline +:+
  String.concat newline summary +:+ newline +:+
  "</findings>" +:+ newline.

Definition prepare_prompt (findings : list pyval) : result string :=
  severity_counts ← count_severities findings severity_counts_init;
  findings_by_category ← group_findings findings [];
  summary ← findings_summary findings_by_category;
  critical ← py_getitem severity_counts "Critical";
  high ← py_getitem severity_counts "High";
  medium ← py_getitem severity_counts "Medium";
  low ← py_getitem severity_counts "Low";
  informational ← py_getitem severity_counts "Informational";
  Ok (format_prompt (length findings) critical high medium low informational summary).

(** ** The model invoker *)

Record request_body : Type := {
  anthropic_version : string;
  messages : list (string * string);  (* role, content *)
  max_tokens : Z;
  temperature : QArith_base.Q;
  top_p : QArith_base.Q
}.

Record invoke_args : Type := {
  modelId : string;
  contentType : string;
  accept : string;
  body : request_body
}.

(** The client handle.  [bedrock.invoke_model(...)], the read of the body stream
    and [json.loads] are one step here: the handle maps the arguments of the
    call to the parsed response body, or to the exception one of the three
    raised. *)
Definition client : Type := invoke_args → result pyval.

Definition model_id : string := "anthropic.claude-3-haiku-20240307-v1:0".

Definition user_message (prompt : string) : string :=
  "You are a cybersecurity expert analyzing AWS security findings. " +:+
  "Generate a concise, professional security report based on the following findings:" +:+
  newline +:+ newline +:+
  prompt +:+ newline +:+ newline +:+
  "Your report should include:" +:+ newline +:+
  "1. An executive summary of the security posture" +:+ newline +:+
  "2. Analysis of the most critical findings" +:+ newline +:+
  "3. Clear, actionable recommendations" +:+ newline +:+
  "4. Compliance implications" +:+ newline +:+ newline +:+
  "Format the report with clear headings and concise language suitable for both " +:+
  "technical and non-technical stakeholders.".

Definition build_request (prompt : string) : request_body :=
  {| anthropic_version := "bedrock-2023-05-31";
     messages := [("user", user_message prompt)];
     max_tokens := 4096;
     temperature := QArith_base.Qmake 7 10;
     top_p := QArith_base.Qmake 9 10 |}.

Definition invoke_claude_model (bedrock : client) (prompt : string) : result pyval :=
  try_except
    (bedrock {| modelId := model_id;
                contentType := "application/json";
                accept := "application/json";
                body := build_request prompt |})
    (λ e, Raise e).

(** ** The entry point *)

Definition get_ai_analysis (bedrock_client : client) (findings : list pyval)
  : result string :=
  try_except
    (prompt ← prepare_prompt findings;
     response ← invoke_claude_model bedrock_client prompt;
     narrative ← extract_narrative_claude response;
     Ok narrative)
    (λ _, Ok generate_fallback_narrative).


(** ** Examples *)

Definition finding_of (severity category description : string) : pyval :=
  VDict [("severity", VStr severity); ("category", VStr category);
         ("description", VStr description);
         ("resource_type", VStr "AWS::IAM::User"); ("resource_id", VStr "alice")].

Definition six_iam : list pyval :=
  [finding_of "Low" "IAM" "a"; finding_of "Critical" "IAM" "b"; finding_of "High" "IAM" "c";
   finding_of "Low" "IAM" "d"; finding_of "Medium" "IAM" "e";
   finding_of "Informational" "IAM" "f"].

(** ** Vocabulary of the statements *)

(** The finding is a dict whose [severity] is the str [label]. *)
Definition has_severity (label : string) (f : pyval) : bool :=
  match f with
  | VDict d =>
      match alist_lookup "severity" d with
      | Some (VStr s) => bool_decide (s = label)
      | _ => false
      end
  | _ => false
  end.

(** The severity of the finding is one of the five recognized labels. *)
Definition recognized (f : pyval) : bool :=
  has_severity "Critical" f || has_severity "High" f || has_severity "Medium" f
  || has_severity "Low" f || has_severity "Informational" f.

(** What the grouping loop reads as the category of a finding, and what the
    sort reads as its rank. *)
Definition category_of (f : pyval) : pyval :=
  match py_get f "category" (VStr "Other") with
  | Ok c => c
  | Raise _ => VNone
  end.

Definition rank_of (f : pyval) : nat :=
  match sort_key f with
  | Ok n => n
  | Raise _ => 999
  end.

(** The rank the sort gives to a severity value. *)
Definition severity_rank (sev : pyval) : nat :=
  match py_dict_get severity_order sev 999 with
  | Ok n => n
  | Raise _ => 999
  end.

(** A finding the loops of [prepare_prompt] accept: a dict whose severity and
    category can be hashed. *)
Definition wf_finding (f : pyval) : bool :=
  match f with
  | VDict d =>
      hashable (default VNone (alist_lookup "severity" d))
      && hashable (default (VStr "Other") (alist_lookup "category" d))
  | _ => false
  end.

(** The distinct values of a list, each at its first occurrence. *)
Fixpoint first_occurrences (l : list pyval) : list pyval :=
  match l with
  | [] => []
  | x :: l' => x :: List.filter (λ y, negb (py_eqb x y)) (first_occurrences l')
  end.

(** A key is in a list of keys, as a dict compares keys. *)
Definition key_mem (c : pyval) (ks : list pyval) : bool :=
  existsb (λ k, py_eqb k c) ks.

(** The keys of a dict: hashable, and no two of them equal. *)
Fixpoint keys_distinct (ks : list pyval) : bool :=
  match ks with
  | [] => true
  | k :: ks' => hashable k && negb (key_mem k ks') && keys_distinct ks'
  end.

(** The findings of a category, in the order of the input. *)
Definition members (fs : list pyval) (k : pyval) : list pyval :=
  List.filter (λ f, py_eqb k (category_of f)) fs.

(** The groups as the specification words them: one group for each category,
    in the order the categories first occur, holding the findings of the
    category in input order. *)
Definition category_groups (fs : list pyval) : groups :=
  (λ k, (k, members fs k)) <$> first_occurrences (category_of <$> fs).

(** The same from a dict that holds groups already: the loop invariant. *)
Definition extend_groups (g : groups) (fs : list pyval) : groups :=
  ((λ kv, (kv.1, kv.2 ++ members fs kv.1)) <$> g)
  ++ ((λ k, (k, members fs k))
      <$> List.filter (λ c, negb (key_mem c g.*1)) (first_occurrences (category_of <$> fs))).

(** The findings of a group as the sort leaves them. *)
Definition sorted_by_rank (ms : list pyval) : list pyval :=
  (stable_sort (zip (rank_of <$> ms) ms)).*2.

(** The entries under the header of a group. *)
Definition section_body (k : pyval) (ms : list pyval) : list summary_line :=
  (FindingLine <$> take 5 (sorted_by_rank ms))
  ++ (if 5 <? length ms then [MoreLine (length ms - 5) k] else []).

Definition severity_labels : list string :=
  ["Critical"; "High"; "Medium"; "Low"; "Informational"].

(** The value is one of the five labels. *)
Definition is_label (v : pyval) : bool :=
  match v with
  | VStr s => bool_decide (s ∈ severity_labels)
  | _ => false
  end.

(** The number of findings of a severity. *)
Definition count_of (label : string) (fs : list pyval) : nat :=
  length (List.filter (has_severity label) fs).

(** The lines of the summary for the groups of the specification. *)
Definition lines_of (g : groups) : list summary_line :=
  mjoin ((λ kv, CategoryHeader kv.1 :: section_body kv.1 kv.2) <$> g).

(** The summary read back: the entries before the first header, and then each
    header with the entries up to the next one. *)
Fixpoint split_sections (ls : list summary_line)
  : list summary_line * list (pyval * list summary_line) :=
  match ls with
  | [] => ([], [])
  | l :: ls' =>
      let '(body, secs) := split_sections ls' in
      match l with
      | CategoryHeader c => ([], (c, body) :: secs)
      | _ => (l :: body, secs)
      end
  end.

(** The findings and the remainder counts a section shows, in order. *)
Definition shown_findings (body : list summary_line) : list pyval :=
  omap (λ l, match l with FindingLine f => Some f | _ => None end) body.

Definition remainder_lines (body : list summary_line) : list (nat * pyval) :=
  omap (λ l, match l with MoreLine n c => Some (n, c) | _ => None end) body.

(** A part of a response the extractor accepts: a dict, whose [text] is a str
    (or missing) when its [type] is ["text"]. *)
Definition is_text_part (p : pyval) : bool :=
  match p with
  | VDict d =>
      match alist_lookup "type" d with
      | Some (VStr t) => bool_decide (t = "text")
      | _ => false
      end
  | _ => false
  end.

Definition part_text (p : pyval) : string :=
  match p with
  | VDict d =>
      match alist_lookup "text" d with
      | Some (VStr t) => t
      | _ => EmptyString
      end
  | _ => EmptyString
  end.

Definition wf_part (p : pyval) : bool :=
  match p with
  | VDict d =>
      negb (is_text_part p)
      || match alist_lookup "text" d with
         | Some (VStr _) | None => true
         | Some _ => false
         end
  | _ => false
  end.

Fixpoint concat_strings (l : list string) : string :=
  match l with
  | [] => EmptyString
  | s :: l' => s +:+ concat_strings l'
  end.

(** The order of the sort on the decorated entries. *)
Definition key_le {A} (a b : nat * A) : Prop := a.1 ≤ b.1.

Definition is_header (l : summary_line) : bool :=
  match l with
  | CategoryHeader _ => true
  | _ => false
  end.

(** Scenario 4 of the specification. *)
Definition hello_world_response : pyval :=
  VDict [("content",
          VList [VDict [("type", VStr "text"); ("text", VStr "Hello ")];
                 VDict [("type", VStr "other")];
                 VDict [("type", VStr "text"); ("text", VStr "world")]])].

(** Findings with an unknown severity, a [None] category, and no severity or
    category at all. *)
Definition mixed_findings : list pyval :=
  [finding_of "Critical" "IAM" "root access key";
   VDict [("severity", VStr "Urgent"); ("category", VNone)];
   VDict [("description", VStr "public bucket")];
   finding_of "Informational" "IAM" "unused role";
   VDict [("severity", VNone); ("category", VStr "IAM")]].

(** A value that is no list and that a [for] loop walks without a step: the
    empty str and the empty dict. *)
Definition iterates_empty (v : pyval) : bool :=
  match v with
  | VStr EmptyString | VDict [] => true
  | _ => false
  end.


(** The keys of a finding [prepare_prompt] reads. *)
Definition prompt_fields : list string :=
  ["severity"; "category"; "description"; "resource_type"; "resource_id"].

(** Two dict findings that agree on the keys the prompt reads. *)
Definition same_fields (f f' : pyval) : Prop :=
  match f, f' with
  | VDict d, VDict d' =>
      ∀ key, key ∈ prompt_fields → alist_lookup key d = alist_lookup key d'
  | _, _ => False
  end.

(** Two entries of the summary that are one entry up to such findings. *)
Definition same_line (l l' : summary_line) : Prop :=
  match l, l' with
  | CategoryHeader c, CategoryHeader c' => c = c'
  | FindingLine f, FindingLine f' => same_fields f f'
  | MoreLine n c, MoreLine n' c' => n = n' ∧ c = c'
  | _, _ => False
  end.

(** The arguments of the one call the invoker makes. *)
Definition request_for (prompt : string) : invoke_args :=
  {| modelId := model_id;
     contentType := "application/json";
     accept := "application/json";
     body := build_request prompt |}.

(** * Properties *)

(** ** The error monad *)

Lemma bind_Ok {A B} (m : result A) (f : A → result B) (b : B) :
  m ≫= f = Ok b ↔ ∃ a, m = Ok a ∧ f a = Ok b.
Proof.
  destruct m as [a|e]; simpl; split.
  - intros H. by exists a.
  - by intros (a' & [= <-] & H).
  - intros [=].
  - by intros (a' & [=] & _).
Qed.

Lemma filter_none {A} (f : A → bool) (l : list A) :
  Forall (λ x, f x = false) l → List.filter f l = [].
Proof. induction 1 as [|x l Hx _ IH]; simpl; [done|]. by rewrite Hx. Qed.

Lemma try_except_total {A} (body : result A) (h : exn → A) :
  ∃ a, try_except body (λ e, Ok (h e)) = Ok a.
Proof. destruct body; simpl; eauto. Qed.

(** ** [strip] *)

Lemma app_Empty s : EmptyString +:+ s = s.
Proof. done. Qed.

Lemma app_String c s t : String c s +:+ t = String c (s +:+ t).
Proof. done. Qed.

Lemma app_Empty_r s : s +:+ EmptyString = s.
Proof. induction s as [|c s IH]; [done|]. by rewrite app_String, IH. Qed.

Lemma app_assoc_string s t u : (s +:+ t) +:+ u = s +:+ t +:+ u.
Proof. induction s as [|c s IH]; [done|]. by rewrite !app_String, IH. Qed.

Section strip.

Lemma lstrip_first s :
  match first_char (lstrip s) with
  | Some c => py_isspace c = false
  | None => True
  end.
Proof.
  induction s as [|c s IH]; simpl; [done|].
  destruct (py_isspace c) eqn:E; [done|]. by simpl.
Qed.

Lemma lstrip_fixed s :
  match first_char s with
  | Some c => py_isspace c = false
  | None => True
  end →
  lstrip s = s.
Proof. destruct s as [|c s]; simpl; [done|]. by intros ->. Qed.

Lemma rstrip_empty_iff s : rstrip s = EmptyString ↔ all_space s = true.
Proof.
  induction s as [|c s IH]; simpl; [done|].
  destruct (rstrip s) eqn:E.
  - destruct (py_isspace c); simpl; [|by split].
    split; [intros _; by apply IH | done].
  - split; [done|]. intros [_ H]%andb_true_iff. apply IH in H. done.
Qed.

Lemma rstrip_first s :
  match first_char s with
  | Some c => py_isspace c = false
  | None => True
  end →
  first_char (rstrip s) = first_char s.
Proof.
  destruct s as [|c s]; simpl; [done|]. intros Hc.
  destruct (rstrip s); [by rewrite Hc|done].
Qed.

Lemma rstrip_last s :
  match last_char (rstrip s) with
  | Some c => py_isspace c = false
  | None => True
  end.
Proof.
  induction s as [|c s IH]; simpl; [done|].
  destruct (rstrip s) as [|c' r] eqn:E.
  - destruct (py_isspace c) eqn:Ec; by simpl.
  - simpl. simpl in IH. done.
Qed.

Lemma rstrip_fixed s :
  match last_char s with
  | Some c => py_isspace c = false
  | None => True
  end →
  rstrip s = s.
Proof.
  induction s as [|c s IH]; [done|].
  destruct s as [|c' s].
  - simpl. by intros ->.
  - intros H. change (last_char (String c (String c' s))) with (last_char (String c' s)) in H.
    specialize (IH H). change (rstrip (String c (String c' s))) with
      (match rstrip (String c' s) with
       | EmptyString => if py_isspace c then EmptyString else String c EmptyString
       | r => String c r
       end).
    by rewrite IH.
Qed.

Lemma strip_idempotent s : strip (strip s) = strip s.
Proof.
  unfold strip.
  assert (lstrip (rstrip (lstrip s)) = rstrip (lstrip s)) as ->.
  { apply lstrip_fixed. rewrite rstrip_first; apply lstrip_first. }
  apply rstrip_fixed, rstrip_last.
Qed.

Lemma lstrip_split s : ∃ pre, s = pre +:+ lstrip s ∧ all_space pre = true.
Proof.
  induction s as [|c s (pre & Hs & Hpre)]; simpl.
  - by exists EmptyString.
  - destruct (py_isspace c) eqn:E.
    + exists (String c pre). simpl. rewrite E, Hpre. split; [|done].
      rewrite app_String. by rewrite <-Hs.
    + by exists EmptyString.
Qed.

Lemma rstrip_split s : ∃ post, s = rstrip s +:+ post ∧ all_space post = true.
Proof.
  induction s as [|c s (post & Hs & Hpost)]; simpl.
  - by exists EmptyString.
  - destruct (rstrip s) as [|c' r] eqn:E.
    + rewrite app_Empty in Hs. subst post. destruct (py_isspace c) eqn:Ec.
      * exists (String c s). simpl. by rewrite Ec, Hpost.
      * exists s. by rewrite app_String, app_Empty.
    + exists post. split; [|done]. rewrite app_String. by rewrite <-Hs.
Qed.

(** [strip] removes a run of whitespace at each end, and what is left neither
    starts nor ends with whitespace. *)
Lemma strip_spec s :
  ∃ pre post,
    s = pre +:+ strip s +:+ post
    ∧ all_space pre = true ∧ all_space post = true
    ∧ match first_char (strip s) with Some c => py_isspace c = false | None => True end
    ∧ match last_char (strip s) with Some c => py_isspace c = false | None => True end.
Proof.
  destruct (lstrip_split s) as (pre & Hs & Hpre).
  destruct (rstrip_split (lstrip s)) as (post & Hl & Hpost).
  exists pre, post. unfold strip. split_and!; try done.
  - by rewrite <-Hl.
  - rewrite rstrip_first; apply lstrip_first.
  - apply rstrip_last.
Qed.

End strip.

(** ** Response extraction *)

Section extraction.

Lemma text_test_is_text_part d :
  py_eqb (default VNone (alist_lookup "type" d)) (VStr "text") = is_text_part (VDict d).
Proof.
  simpl. destruct (alist_lookup "type" d) as [[| | |t| |]|]; simpl; try done.
Qed.

Lemma concat_text_parts_wf parts : ∀ narrative,
  Forall (λ p, wf_part p = true) parts →
  concat_text_parts narrative parts
  = Ok (narrative +:+ concat_strings (part_text <$> List.filter is_text_part parts)).
Proof.
  induction parts as [|p parts IH]; intros narrative Hwf.
  - simpl. by rewrite app_Empty_r.
  - apply Forall_cons in Hwf as [Hp Hwf].
    destruct p as [| | | | |d]; try done.
    cbn [concat_text_parts py_get mbind result_bind List.filter].
    rewrite text_test_is_text_part.
    destruct (is_text_part (VDict d)) eqn:Et.
    + unfold wf_part in Hp. rewrite Et in Hp. simpl in Hp.
      cbn [fmap list_fmap concat_strings part_text].
      destruct (alist_lookup "text" d) as [[| | |t| |]|]; try done; simpl.
      * rewrite IH by done. by rewrite app_assoc_string.
      * rewrite IH by done. by rewrite app_assoc_string.
    + by apply IH.
Qed.

Lemma extract_total response : ∃ narrative, extract_narrative_claude response = Ok narrative.
Proof. apply (try_except_total _ (λ _, generate_fallback_narrative)). Qed.

Lemma strip_fallback : strip generate_fallback_narrative = generate_fallback_narrative.
Proof. vm_compute. reflexivity. Qed.

Lemma extract_stripped response narrative :
  extract_narrative_claude response = Ok narrative → strip narrative = narrative.
Proof.
  unfold extract_narrative_claude.
  destruct (py_get response "content" (VList []) ≫= _) as [s|e] eqn:E; simpl.
  - intros [= <-].
    apply bind_Ok in E as (c & _ & E). apply bind_Ok in E as (ps & _ & E).
    apply bind_Ok in E as (n & _ & [= <-]). apply strip_idempotent.
  - intros [= <-]. apply strip_fallback.
Qed.

Lemma extract_not_dict response :
  (∀ d, response ≠ VDict d) → extract_narrative_claude response = Ok generate_fallback_narrative.
Proof. intros H. destruct response; try done. by destruct (H l). Qed.

Lemma extract_well_formed d parts :
  alist_lookup "content" d = Some (VList parts) →
  Forall (λ p, wf_part p = true) parts →
  extract_narrative_claude (VDict d)
  = Ok (strip (concat_strings (part_text <$> List.filter is_text_part parts))).
Proof.
  intros Hc Hwf. unfold extract_narrative_claude.
  cbn [py_get mbind result_bind]. rewrite Hc. simpl.
  rewrite concat_text_parts_wf by done. by rewrite app_Empty.
Qed.

End extraction.

(** C7: on a response whose [content] is a list of well-formed parts, the
    extractor returns the texts of the parts of type ["text"], joined in list
    order and stripped; the response with parts "Hello ", other, "world" gives
    "Hello world", and an empty [content] gives the empty string. *)
Theorem extract_concatenates_text_parts :
  (∀ d parts,
      alist_lookup "content" d = Some (VList parts) →
      Forall (λ p, wf_part p = true) parts →
      extract_narrative_claude (VDict d)
      = Ok (strip (concat_strings (part_text <$> List.filter is_text_part parts))))
  ∧ extract_narrative_claude hello_world_response = Ok "Hello world"
  ∧ extract_narrative_claude (VDict [("content", VList [])]) = Ok EmptyString.
Proof.
  split_and!; [|done..]. apply extract_well_formed.
Qed.

Lemma extract_concatenates_text_parts_witness :
  extract_narrative_claude
    (VDict [("id", VStr "msg_01"); ("content", VList [VDict [("type", VStr "text")];
                                     VDict [("type", VStr "text"); ("text", VStr " ok ")]])])
  = Ok "ok".
Proof.
  apply (proj1 extract_concatenates_text_parts
           [("id", VStr "msg_01"); ("content", VList [VDict [("type", VStr "text")];
                                     VDict [("type", VStr "text"); ("text", VStr " ok ")]])]
           [VDict [("type", VStr "text")];
            VDict [("type", VStr "text"); ("text", VStr " ok ")]]).
  - reflexivity.
  - repeat constructor.
Defined.

(** C8: extraction gives the same narrative each time it runs on a response,
    and the narrative it gives is already stripped: stripping it again changes
    nothing. *)
Theorem extraction_idempotent response :
  ∃ narrative,
    extract_narrative_claude response = Ok narrative
    ∧ (n1 ← extract_narrative_claude response;
       n2 ← extract_narrative_claude response;
       Ok (n1, n2)) = Ok (narrative, narrative)
    ∧ strip narrative = narrative.
Proof.
  destruct (extract_total response) as [narrative H]. exists narrative.
  split_and!; [done| |by eapply extract_stripped].
  by rewrite H.
Qed.

(** C2 as written does not hold: a response dict with no [content] gives the empty
    string, not the fallback narrative. *)
Lemma extract_missing_content_not_fallback :
  alist_lookup "content" [("id", VStr "msg_01"); ("role", VStr "assistant")] = None
  ∧ extract_narrative_claude (VDict [("id", VStr "msg_01"); ("role", VStr "assistant")])
    = Ok EmptyString
  ∧ extract_narrative_claude (VDict [("id", VStr "msg_01"); ("role", VStr "assistant")])
    ≠ Ok generate_fallback_narrative.
Proof. split_and!; [done|done|]. vm_compute. discriminate. Qed.

(** C2 as amended: a response dict with no [content] gives the empty string,
    and so does one whose [content] is a list of dict parts none of which has
    type ["text"]; the fallback narrative is what the extractor gives when the
    response is not a dict. *)
Theorem extract_missing_or_textless_content :
  (∀ d, alist_lookup "content" d = None → extract_narrative_claude (VDict d) = Ok EmptyString)
  ∧ (∀ d parts,
        alist_lookup "content" d = Some (VList parts) →
        Forall (λ p, (∃ d', p = VDict d') ∧ is_text_part p = false) parts →
        extract_narrative_claude (VDict d) = Ok EmptyString)
  ∧ (∀ response, (∀ d, response ≠ VDict d) →
        extract_narrative_claude response = Ok generate_fallback_narrative).
Proof.
  split_and!.
  - intros d Hc. unfold extract_narrative_claude. cbn [py_get mbind result_bind].
    by rewrite Hc.
  - intros d parts Hc Hparts.
    rewrite (extract_well_formed d parts Hc).
    + rewrite filter_none; [done|].
      eapply Forall_impl; [exact Hparts|]. by intros p [_ Hp].
    + eapply Forall_impl; [exact Hparts|]. intros p [[d' ->] Hp].
      unfold wf_part. by rewrite Hp.
  - apply extract_not_dict.
Qed.

Lemma extract_missing_or_textless_content_witness :
  extract_narrative_claude (VDict [("role", VStr "assistant")]) = Ok EmptyString
  ∧ extract_narrative_claude
      (VDict [("content", VList [VDict [("type", VStr "tool_use")]])]) = Ok EmptyString
  ∧ extract_narrative_claude VNone = Ok generate_fallback_narrative.
Proof.
  split_and!.
  - apply (proj1 extract_missing_or_textless_content [("role", VStr "assistant")]).
    reflexivity.
  - apply (proj1 (proj2 extract_missing_or_textless_content)
             [("content", VList [VDict [("type", VStr "tool_use")]])]
             [VDict [("type", VStr "tool_use")]]).
    + reflexivity.
    + repeat constructor. by exists [("type", VStr "tool_use")].
  - apply (proj2 (proj2 extract_missing_or_textless_content) VNone). discriminate.
Defined.

(** ** Severity counts *)

Section severity_counts.

Lemma count_severities_lookup fs : ∀ m m' label,
  count_severities fs m = Ok m' →
  m' !! label = (λ n, n + length (List.filter (has_severity label) fs)) <$> m !! label.
Proof.
  induction fs as [|f fs IH]; intros m m' label H.
  - injection H as <-. destruct (m !! label); simpl; [f_equal; lia|done].
  - destruct f as [| | | | |d]; try done.
    cbn [count_severities py_get mbind result_bind] in H.
    cbn [List.filter has_severity].
    destruct (alist_lookup "severity" d) as [[| | |s| |]|]; simpl in H; try done;
      try (by rewrite (IH _ _ _ H)).
    destruct (m !! s) as [n|] eqn:Es.
    + rewrite bool_decide_eq_true_2 in H by eauto. simpl in H.
      rewrite (IH _ _ _ H). case_bool_decide as Hl.
      * subst label. rewrite lookup_insert_eq, Es. simpl. f_equal. lia.
      * by rewrite lookup_insert_ne.
    + rewrite bool_decide_eq_false_2 in H by (intros [? [=]]).
      rewrite (IH _ _ _ H). case_bool_decide as Hl; [|done].
      subst label. by rewrite Es.
Qed.

Lemma count_severities_total fs : ∀ m,
  Forall (λ f, wf_finding f = true) fs → ∃ m', count_severities fs m = Ok m'.
Proof.
  induction fs as [|f fs IH]; intros m Hwf; [by eexists|].
  apply Forall_cons in Hwf as [Hf Hwf].
  destruct f as [| | | | |d]; try done.
  cbn [count_severities py_get mbind result_bind].
  apply andb_true_iff in Hf as [Hs _].
  destruct (default VNone (alist_lookup "severity" d)) as [| | |s| |]; simpl; try done;
    try by apply IH.
  destruct (m !! s) as [n|] eqn:Es.
  - rewrite bool_decide_eq_true_2 by eauto. simpl. by apply IH.
  - rewrite bool_decide_eq_false_2 by (intros [? [=]]). by apply IH.
Qed.

(** At most one of the five labels is the severity of a finding. *)
Lemma recognized_one_label f :
  Nat.b2n (has_severity "Critical" f) + Nat.b2n (has_severity "High" f)
  + Nat.b2n (has_severity "Medium" f) + Nat.b2n (has_severity "Low" f)
  + Nat.b2n (has_severity "Informational" f)
  = Nat.b2n (recognized f).
Proof.
  unfold recognized, has_severity.
  destruct f as [| | | | |d]; try done.
  destruct (alist_lookup "severity" d) as [[| | |s| |]|]; try done.
  repeat case_bool_decide; subst; done.
Qed.

Lemma length_filter_b2n {A} (p : A → bool) (l : list A) :
  length (List.filter p l) = foldr (λ x n, Nat.b2n (p x) + n) 0 l.
Proof. induction l as [|x l IH]; simpl; [done|]. destruct (p x); simpl; lia. Qed.

Lemma recognized_count fs :
  length (List.filter (has_severity "Critical") fs)
  + length (List.filter (has_severity "High") fs)
  + length (List.filter (has_severity "Medium") fs)
  + length (List.filter (has_severity "Low") fs)
  + length (List.filter (has_severity "Informational") fs)
  = length (List.filter recognized fs).
Proof.
  rewrite !length_filter_b2n.
  induction fs as [|f fs IH]; simpl; [done|].
  rewrite <-(recognized_one_label f). lia.
Qed.

(** The counts do not see the findings whose severity is not recognized. *)
Lemma count_severities_recognized fs : ∀ m,
  (∀ s, is_Some (m !! s) → s ∈ ["Critical"; "High"; "Medium"; "Low"; "Informational"]) →
  Forall (λ f, wf_finding f = true) fs →
  count_severities (List.filter recognized fs) m = count_severities fs m.
Proof.
  induction fs as [|f fs IH]; intros m Hm Hwf; [done|].
  apply Forall_cons in Hwf as [Hf Hwf].
  destruct f as [| | | | |d]; try done.
  cbn [List.filter].
  destruct (recognized (VDict d)) eqn:Er.
  - cbn [count_severities py_get mbind result_bind].
    destruct (default VNone (alist_lookup "severity" d)) as [| | |s| |]; simpl; try done;
      try by apply IH.
    destruct (m !! s) as [n|] eqn:Es.
    + rewrite bool_decide_eq_true_2 by eauto. simpl.
      apply IH; [|done]. intros s' [x Hx]. apply Hm.
      destruct (decide (s = s')) as [->|Hne]; [eauto|].
      rewrite lookup_insert_ne in Hx by done. eauto.
    + rewrite bool_decide_eq_false_2 by (intros [? [=]]). by apply IH.
  - rewrite IH by done.
    cbn [count_severities py_get mbind result_bind].
    apply andb_true_iff in Hf as [Hs _].
    unfold recognized, has_severity in Er.
    destruct (alist_lookup "severity" d) as [[| | |s| |]|]; simpl in *; try done.
    destruct (m !! s) as [n|] eqn:Es; [|by rewrite bool_decide_eq_false_2 by (intros [? [=]])].
    exfalso. assert (is_Some (m !! s)) as Hin%Hm by eauto.
    rewrite !orb_false_iff, !bool_decide_eq_false in Er.
    rewrite !elem_of_cons, elem_of_nil in Hin.
    destruct Er as ((((? & ?) & ?) & ?) & ?).
    destruct Hin as [->|[->|[->|[->|[->|[]]]]]]; done.
Qed.

End severity_counts.

(** ** Keys of the category dict *)

Section keys.

Lemma py_eqb_sym a b : py_eqb a b = py_eqb b a.
Proof.
  destruct a, b; simpl; try done; apply bool_decide_ext; split; congruence.
Qed.

Lemma py_eqb_refl a : hashable a = true → py_eqb a a = true.
Proof. destruct a; simpl; try done; intros _; by apply bool_decide_eq_true. Qed.

Lemma py_eqb_hashable a b : py_eqb a b = true → hashable a = true ∧ hashable b = true.
Proof. by destruct a, b. Qed.

Lemma py_eqb_trans a b c : py_eqb a b = true → py_eqb b c = true → py_eqb a c = true.
Proof.
  destruct a as [|x|n|s| |], b as [|y|m|t| |], c as [|z|k|u| |]; simpl; try done;
    rewrite !bool_decide_eq_true; try congruence.
  - by intros -> ->.
  - intros -> E. by destruct x, z.
  - by intros -> ->.
Qed.

Lemma py_eqb_congr k a b : py_eqb a b = true → py_eqb k a = py_eqb k b.
Proof.
  intros Hab.
  destruct (py_eqb k a) eqn:Ea, (py_eqb k b) eqn:Eb; try done.
  - by rewrite (py_eqb_trans k a b) in Eb.
  - rewrite py_eqb_sym in Hab. by rewrite (py_eqb_trans k b a) in Ea.
Qed.

Lemma py_eqb_str k s : py_eqb k (VStr s) = true → k = VStr s.
Proof. destruct k; simpl; try done. by intros ->%bool_decide_eq_true. Qed.

Lemma py_eqb_none k : py_eqb k VNone = true → k = VNone.
Proof. by destruct k. Qed.

Lemma key_mem_eqb a b ks : py_eqb a b = true → key_mem a ks = key_mem b ks.
Proof.
  intros Hab. induction ks as [|k ks IH]; simpl; [done|].
  by rewrite IH, (py_eqb_congr k a b).
Qed.

Lemma key_mem_app c ks ks' : key_mem c (ks ++ ks') = key_mem c ks || key_mem c ks'.
Proof. apply existsb_app. Qed.

Lemma key_mem_false c ks k : key_mem c ks = false → k ∈ ks → py_eqb k c = false.
Proof.
  induction ks as [|k' ks IH]; simpl; [by intros _ ?%elem_of_nil|].
  intros [H1 H2]%orb_false_iff [->|Hin]%elem_of_cons; auto.
Qed.

Lemma key_mem_true c ks : key_mem c ks = true → ∃ k, k ∈ ks ∧ py_eqb k c = true.
Proof.
  induction ks as [|k' ks IH]; simpl; [done|].
  intros [H|H]%orb_true_iff.
  - exists k'. split; [left|done].
  - destruct (IH H) as (k & Hk & E). exists k. split; [by right|done].
Qed.

Lemma groups_mem_keys c (g : groups) : groups_mem c g = key_mem c g.*1.
Proof. induction g as [|[k ms] g IH]; csimpl; [done|]. by rewrite IH. Qed.

Lemma keys_distinct_snoc ks c :
  keys_distinct ks = true → key_mem c ks = false → hashable c = true →
  keys_distinct (ks ++ [c]) = true.
Proof.
  intros Hd Hc Hh. induction ks as [|k ks IH]; simpl in *.
  - by rewrite Hh.
  - apply orb_false_iff in Hc as [Hkc Hc].
    apply andb_true_iff in Hd as [[Hk Hn]%andb_true_iff Hd].
    rewrite Hk, key_mem_app, IH by done. simpl.
    rewrite py_eqb_sym, Hkc. apply negb_true_iff in Hn. by rewrite Hn.
Qed.

Lemma keys_distinct_hashable ks k : keys_distinct ks = true → k ∈ ks → hashable k = true.
Proof.
  induction ks as [|k' ks IH]; simpl; [by intros _ ?%elem_of_nil|].
  intros [[Hk _]%andb_true_iff Hd]%andb_true_iff [->|Hin]%elem_of_cons; auto.
Qed.

(** Two equal keys of a dict sit at the same position. *)
Lemma keys_distinct_lookup ks i j a b :
  keys_distinct ks = true → ks !! i = Some a → ks !! j = Some b →
  py_eqb a b = true → i = j.
Proof.
  revert i j. induction ks as [|k ks IH]; intros i j Hd Hi Hj E; [done|].
  simpl in Hd. apply andb_true_iff in Hd as [[Hk Hn%negb_true_iff]%andb_true_iff Hd].
  destruct i as [|i], j as [|j]; simpl in *; try done.
  - injection Hi as ->. apply list_elem_of_lookup_2 in Hj.
    rewrite py_eqb_sym in E. by rewrite (key_mem_false _ _ _ Hn Hj) in E.
  - injection Hj as ->. apply list_elem_of_lookup_2 in Hi.
    by rewrite (key_mem_false _ _ _ Hn Hi) in E.
  - f_equal. eauto.
Qed.

End keys.

(** ** The grouping loop *)

Arguments members : simpl never.
Arguments category_of : simpl never.

Section grouping.

Lemma fmap_ext_Forall {A B} (f g : A → B) (P : A → Prop) (l : list A) :
  Forall P l → (∀ x, P x → f x = g x) → f <$> l = g <$> l.
Proof.
  intros Hl Hfg. induction Hl as [|x l Hx _ IH]; csimpl; [done|].
  f_equal; auto.
Qed.

Lemma Forall_filter_holds {A} (p : A → bool) (l : list A) :
  Forall (λ x, p x = true) (List.filter p l).
Proof. apply Forall_forall. intros x Hx%list_elem_of_In%filter_In. tauto. Qed.

Lemma filter_filter_andb {A} (p q : A → bool) (l : list A) :
  List.filter p (List.filter q l) = List.filter (λ x, q x && p x) l.
Proof.
  induction l as [|x l IH]; simpl; [done|].
  destruct (q x) eqn:Eq; simpl; [|done]. destruct (p x); by rewrite IH.
Qed.

Lemma filter_ext_bool {A} (p q : A → bool) (l : list A) :
  (∀ x, p x = q x) → List.filter p l = List.filter q l.
Proof. intros H. induction l as [|x l IH]; simpl; [done|]. by rewrite H, IH. Qed.

Lemma filter_all {A} (l : list A) : List.filter (λ _, true) l = l.
Proof. induction l as [|x l IH]; simpl; [done|]. by rewrite IH. Qed.

Lemma category_of_dict d :
  category_of (VDict d) = default (VStr "Other") (alist_lookup "category" d).
Proof. done. Qed.

Lemma wf_finding_category f : wf_finding f = true → hashable (category_of f) = true.
Proof.
  destruct f as [| | | | |d]; try done. simpl.
  by intros [_ H]%andb_true_iff.
Qed.

Lemma members_cons fs f k :
  members (f :: fs) k = if py_eqb k (category_of f) then f :: members fs k else members fs k.
Proof. done. Qed.

Lemma groups_append_keys c f (g : groups) : (groups_append c f g).*1 = g.*1.
Proof.
  induction g as [|[k ms] g IH]; csimpl; [done|].
  destruct (py_eqb k c); csimpl; [done|]. by rewrite IH.
Qed.

Lemma groups_append_absent c f (g : groups) :
  key_mem c g.*1 = false → groups_append c f g = g.
Proof.
  induction g as [|[k ms] g IH]; csimpl; [done|].
  intros [-> H]%orb_false_iff. by rewrite IH.
Qed.

(** With distinct keys, the append reaches the one group of the key. *)
Lemma groups_append_spec c f (g : groups) :
  keys_distinct g.*1 = true →
  groups_append c f g = (λ kv, (kv.1, kv.2 ++ (if py_eqb kv.1 c then [f] else []))) <$> g.
Proof.
  induction g as [|[k ms] g IH]; csimpl; [done|].
  intros [[Hk Hn%negb_true_iff]%andb_true_iff Hd]%andb_true_iff.
  destruct (py_eqb k c) eqn:E; csimpl.
  - f_equal. rewrite <-(groups_append_absent c f g) at 1.
    + by apply IH.
    + by rewrite <-(key_mem_eqb k c).
  - rewrite app_nil_r. f_equal. by apply IH.
Qed.

Lemma groups_append_fresh c f (g : groups) :
  key_mem c g.*1 = false → hashable c = true →
  groups_append c f (g ++ [(c, [])]) = g ++ [(c, [f])].
Proof.
  intros Hc Hh. induction g as [|[k ms] g IH]; csimpl in *.
  - by rewrite py_eqb_refl.
  - apply orb_false_iff in Hc as [-> Hc]. by rewrite IH.
Qed.

(** A step of the loop on a category the dict has. *)
Lemma extend_groups_present (g : groups) f fs :
  keys_distinct g.*1 = true →
  key_mem (category_of f) g.*1 = true →
  extend_groups (groups_append (category_of f) f g) fs = extend_groups g (f :: fs).
Proof.
  intros Hd Hc. unfold extend_groups.
  rewrite groups_append_keys, groups_append_spec by done.
  rewrite <-list_fmap_compose. f_equal.
  - apply list_fmap_ext. intros _ [k ms] _. simpl. rewrite members_cons.
    destruct (py_eqb k (category_of f)); [by rewrite <-app_assoc|by rewrite app_nil_r].
  - cbn [fmap list_fmap first_occurrences List.filter]. rewrite Hc. simpl.
    rewrite filter_filter_andb.
    rewrite (filter_ext_bool
               (λ x, negb (py_eqb (category_of f) x) && negb (key_mem x g.*1))
               (λ c, negb (key_mem c g.*1))).
    + apply (fmap_ext_Forall _ _ _ _ (Forall_filter_holds _ _)).
      intros k Hk%negb_true_iff. rewrite members_cons.
      destruct (py_eqb k (category_of f)) eqn:E; [|done].
      by rewrite (key_mem_eqb k (category_of f)), Hc in Hk.
    + intros k. destruct (py_eqb (category_of f) k) eqn:E; simpl; [|done].
      by rewrite <-(key_mem_eqb (category_of f) k), Hc.
Qed.

(** A step of the loop on a new category. *)
Lemma extend_groups_absent (g : groups) f fs :
  hashable (category_of f) = true →
  key_mem (category_of f) g.*1 = false →
  extend_groups (g ++ [(category_of f, [f])]) fs = extend_groups g (f :: fs).
Proof.
  intros Hh Hc. unfold extend_groups.
  rewrite !fmap_app, <-app_assoc. f_equal.
  - apply (fmap_ext_Forall _ _ (λ kv, kv.1 ∈ g.*1)).
    + apply Forall_forall. intros [k ms] Hin. apply list_elem_of_fmap. by exists (k, ms).
    + intros [k ms] Hin. simpl in *. rewrite members_cons.
      by rewrite (key_mem_false _ _ _ Hc Hin).
  - cbn [fmap list_fmap first_occurrences List.filter app]. rewrite Hc. simpl.
    rewrite members_cons, py_eqb_refl by done. f_equal.
    rewrite filter_filter_andb.
    rewrite (filter_ext_bool _ (λ c, negb (py_eqb (category_of f) c) && negb (key_mem c g.*1))).
    + apply (fmap_ext_Forall _ _ _ _ (Forall_filter_holds _ _)).
      intros k [Hk _]%andb_true_iff. rewrite members_cons.
      apply negb_true_iff in Hk. by rewrite py_eqb_sym, Hk.
    + intros k. rewrite key_mem_app. simpl. rewrite orb_false_r, negb_orb.
      apply andb_comm.
Qed.

(** The loop computes the groups of the invariant. *)
Lemma group_findings_extend fs : ∀ g : groups,
  keys_distinct g.*1 = true →
  Forall (λ f, wf_finding f = true) fs →
  group_findings fs g = Ok (extend_groups g fs).
Proof.
  induction fs as [|f fs IH]; intros g Hd Hwf.
  - unfold extend_groups. simpl. rewrite app_nil_r. f_equal.
    rewrite <-(list_fmap_id g) at 1. apply list_fmap_ext.
    intros _ [k ms] _. simpl. by rewrite app_nil_r.
  - apply Forall_cons in Hwf as [Hf Hwf].
    pose proof (wf_finding_category f Hf) as Hh.
    destruct f as [| | | | |d]; try done.
    cbn [group_findings py_get mbind result_bind]. rewrite <-category_of_dict.
    unfold groups_contains. rewrite Hh. cbn [mbind result_bind].
    rewrite groups_mem_keys.
    destruct (key_mem (category_of (VDict d)) g.*1) eqn:Hc.
    + rewrite IH; [|by rewrite groups_append_keys|done].
      f_equal. by apply extend_groups_present.
    + rewrite groups_append_fresh by done.
      rewrite IH; [| |done].
      * f_equal. by apply extend_groups_absent.
      * rewrite fmap_app. simpl. by apply keys_distinct_snoc.
Qed.

Lemma group_findings_category_groups fs :
  Forall (λ f, wf_finding f = true) fs →
  group_findings fs [] = Ok (category_groups fs).
Proof.
  intros Hwf. rewrite group_findings_extend by done. f_equal.
  unfold extend_groups, category_groups. simpl. by rewrite filter_all.
Qed.

End grouping.

(** ** The sort *)

Section sorting.

Context {A : Type}.
Implicit Types (x : nat * A) (l : list (nat * A)).

Lemma insert_by_key_perm x l : insert_by_key x l ≡ₚ x :: l.
Proof.
  induction l as [|y l IH]; simpl; [done|].
  destruct (x.1 <=? y.1); [done|]. rewrite IH. apply Permutation_swap.
Qed.

Lemma stable_sort_perm l : stable_sort l ≡ₚ l.
Proof.
  induction l as [|x l IH]; simpl; [done|].
  by rewrite insert_by_key_perm, IH.
Qed.

Lemma insert_by_key_sorted x l :
  StronglySorted key_le l → StronglySorted key_le (insert_by_key x l).
Proof.
  induction 1 as [|y l Hl IH Hy]; simpl.
  - repeat constructor.
  - destruct (x.1 <=? y.1) eqn:E.
    + apply Nat.leb_le in E. constructor; [by constructor|].
      constructor; [done|]. eapply Forall_impl; [exact Hy|].
      intros z Hz. unfold key_le in *. lia.
    + apply Nat.leb_gt in E. constructor; [done|].
      rewrite insert_by_key_perm. constructor; [|done]. unfold key_le. lia.
Qed.

Lemma stable_sort_sorted l : StronglySorted key_le (stable_sort l).
Proof.
  induction l as [|x l IH]; simpl; [constructor|]. by apply insert_by_key_sorted.
Qed.

Lemma insert_by_key_filter n x l :
  List.filter (λ y, y.1 =? n) (insert_by_key x l)
  = List.filter (λ y, y.1 =? n) (x :: l).
Proof.
  induction l as [|y l IH]; [done|].
  cbn [insert_by_key]. destruct (x.1 <=? y.1) eqn:E; [done|].
  apply Nat.leb_gt in E. cbn [List.filter] in *. rewrite IH.
  destruct (x.1 =? n) eqn:Ex; [|done].
  apply Nat.eqb_eq in Ex. destruct (y.1 =? n) eqn:Ey; [|done].
  apply Nat.eqb_eq in Ey. lia.
Qed.

(** The sort is stable: the entries of one key keep their order. *)
Lemma stable_sort_filter n l :
  List.filter (λ y, y.1 =? n) (stable_sort l) = List.filter (λ y, y.1 =? n) l.
Proof.
  induction l as [|x l IH]; [done|].
  cbn [stable_sort]. rewrite insert_by_key_filter. cbn [List.filter]. by rewrite IH.
Qed.

End sorting.

Section sorted_findings.

Lemma zip_rank ms : zip (rank_of <$> ms) ms = (λ f, (rank_of f, f)) <$> ms.
Proof. induction ms as [|f ms IH]; csimpl; [done|]. by rewrite IH. Qed.

Lemma sorted_by_rank_decorated ms :
  Forall (λ p, p.1 = rank_of p.2) (stable_sort (zip (rank_of <$> ms) ms)).
Proof.
  rewrite stable_sort_perm, zip_rank. apply Forall_fmap, Forall_forall. done.
Qed.

Lemma sorted_by_rank_perm ms : sorted_by_rank ms ≡ₚ ms.
Proof.
  unfold sorted_by_rank. rewrite stable_sort_perm, zip_rank.
  rewrite <-list_fmap_compose. by rewrite list_fmap_id.
Qed.

Lemma sorted_by_rank_length ms : length (sorted_by_rank ms) = length ms.
Proof. by rewrite sorted_by_rank_perm. Qed.

Lemma sorted_by_rank_sorted ms :
  StronglySorted (λ a b, rank_of a ≤ rank_of b) (sorted_by_rank ms).
Proof.
  unfold sorted_by_rank.
  pose proof (sorted_by_rank_decorated ms) as Hd.
  pose proof (stable_sort_sorted (zip (rank_of <$> ms) ms)) as Hs.
  induction Hs as [|p l Hl IH Hp]; csimpl; [constructor|].
  apply Forall_cons in Hd as [Hp1 Hd]. constructor; [by apply IH|].
  apply Forall_fmap, Forall_forall. intros q Hq. simpl.
  rewrite Forall_forall in Hp, Hd. specialize (Hp q Hq). specialize (Hd q Hq).
  unfold key_le in Hp. simpl in Hd. lia.
Qed.

Lemma filter_snd_decorated n (l : list (nat * pyval)) :
  Forall (λ p, p.1 = rank_of p.2) l →
  List.filter (λ f, rank_of f =? n) l.*2 = (List.filter (λ p, p.1 =? n) l).*2.
Proof.
  induction 1 as [|p l Hp _ IH]; csimpl; [done|].
  rewrite <-Hp. destruct (p.1 =? n); csimpl; by rewrite IH.
Qed.

Lemma sorted_by_rank_stable n ms :
  List.filter (λ f, rank_of f =? n) (sorted_by_rank ms)
  = List.filter (λ f, rank_of f =? n) ms.
Proof.
  unfold sorted_by_rank.
  rewrite filter_snd_decorated by apply sorted_by_rank_decorated.
  rewrite stable_sort_filter, zip_rank.
  rewrite <-filter_snd_decorated by (apply Forall_fmap, Forall_forall; done).
  rewrite <-list_fmap_compose. by rewrite list_fmap_id.
Qed.

(** A stable sort has one result: two sorted lists with the same entries of
    each rank, in the same order, are equal.  So any stable sort, the one of
    Python among them, gives [sorted_by_rank]. *)
Lemma filter_rank_nonempty (s : list pyval) a :
  a ∈ s → List.filter (λ f, rank_of f =? rank_of a) s ≠ [].
Proof.
  intros Hin E. assert (In a []) as []. rewrite <-E.
  apply filter_In. split; [by apply list_elem_of_In|]. apply Nat.eqb_refl.
Qed.

Lemma sorted_head_rank (a b : pyval) (s s' : list pyval) :
  StronglySorted (λ a b, rank_of a ≤ rank_of b) (a :: s) →
  (∀ n, List.filter (λ f, rank_of f =? n) (a :: s)
        = List.filter (λ f, rank_of f =? n) (b :: s')) →
  rank_of a ≤ rank_of b.
Proof.
  intros Hs H.
  assert (b ∈ a :: s) as Hb.
  { apply list_elem_of_In. eapply (proj1 (filter_In _ b (a :: s))).
    rewrite (H (rank_of b)). simpl. rewrite Nat.eqb_refl. by left. }
  apply StronglySorted_cons in Hs as [Ha _].
  apply elem_of_cons in Hb as [->|Hb]; [done|].
  rewrite Forall_forall in Ha. by apply Ha.
Qed.

Lemma stable_sorted_unique (s s' : list pyval) :
  StronglySorted (λ a b, rank_of a ≤ rank_of b) s →
  StronglySorted (λ a b, rank_of a ≤ rank_of b) s' →
  (∀ n, List.filter (λ f, rank_of f =? n) s = List.filter (λ f, rank_of f =? n) s') →
  s = s'.
Proof.
  revert s'. induction s as [|a s IH]; intros [|b s'] Hs Hs' H; [done| | |].
  - destruct (filter_rank_nonempty (b :: s') b); [by left|by rewrite <-H].
  - destruct (filter_rank_nonempty (a :: s) a); [by left|by rewrite H].
  - assert (rank_of a = rank_of b) as Hab.
    { apply Nat.le_antisymm; eapply sorted_head_rank; done. }
    pose proof (H (rank_of a)) as Ha. simpl in Ha.
    rewrite <-Hab, Nat.eqb_refl in Ha. injection Ha as -> Ha.
    f_equal. apply IH.
    + by apply StronglySorted_cons in Hs as [_ ?].
    + by apply StronglySorted_cons in Hs' as [_ ?].
    + intros n. specialize (H n). simpl in H.
      destruct (rank_of b =? n); [by injection H|done].
Qed.

Lemma sorted_by_rank_unique ms (s : list pyval) :
  StronglySorted (λ a b, rank_of a ≤ rank_of b) s →
  (∀ n, List.filter (λ f, rank_of f =? n) s = List.filter (λ f, rank_of f =? n) ms) →
  s = sorted_by_rank ms.
Proof.
  intros Hs H. apply stable_sorted_unique; [done|apply sorted_by_rank_sorted|].
  intros n. by rewrite H, sorted_by_rank_stable.
Qed.

(** In a sorted list a smaller rank comes first. *)
Lemma sorted_rank_before (s : list pyval) i j a b :
  StronglySorted (λ a b, rank_of a ≤ rank_of b) s →
  s !! i = Some a → s !! j = Some b → rank_of a < rank_of b → i < j.
Proof.
  intros Hs. revert i j. induction Hs as [|x l Hl IH Hx]; intros i j Hi Hj Hlt; [done|].
  destruct i as [|i], j as [|j]; simpl in *.
  - injection Hi as ->. injection Hj as ->. lia.
  - lia.
  - injection Hj as ->. apply list_elem_of_lookup_2 in Hi.
    rewrite Forall_forall in Hx. specialize (Hx a Hi). lia.
  - specialize (IH i j Hi Hj Hlt). lia.
Qed.

Lemma sort_key_wf f : wf_finding f = true → sort_key f = Ok (rank_of f).
Proof.
  destruct f as [| | | | |d]; try done. intros [Hs _]%andb_true_iff.
  unfold rank_of, sort_key. cbn [py_get mbind result_bind].
  destruct (alist_lookup "severity" d) as [v|]; simpl in *; [|done].
  by destruct v.
Qed.

Lemma result_mapM_ok {X Y} (f : X → result Y) (g : X → Y) (l : list X) :
  Forall (λ x, f x = Ok (g x)) l → result_mapM f l = Ok (g <$> l).
Proof. induction 1 as [|x l Hx _ IH]; csimpl; [done|]. by rewrite Hx, IH. Qed.

Lemma py_sorted_wf ms :
  Forall (λ f, wf_finding f = true) ms →
  py_sorted sort_key ms = Ok (sorted_by_rank ms).
Proof.
  intros Hwf. unfold py_sorted.
  rewrite (result_mapM_ok sort_key rank_of); [done|].
  eapply Forall_impl; [exact Hwf|]. apply sort_key_wf.
Qed.

End sorted_findings.

(** ** The lines of the summary *)

Section summary.

Lemma split_sections_body body rest :
  Forall (λ l, is_header l = false) body →
  split_sections (body ++ rest)
  = (body ++ (split_sections rest).1, (split_sections rest).2).
Proof.
  induction 1 as [|l body Hl _ IH]; simpl.
  - by destruct (split_sections rest).
  - rewrite IH. by destruct l.
Qed.

Lemma section_body_no_header k ms : Forall (λ l, is_header l = false) (section_body k ms).
Proof.
  unfold section_body. apply Forall_app. split.
  - apply Forall_fmap, Forall_forall. done.
  - destruct (5 <? length ms); repeat constructor.
Qed.

Lemma shown_findings_app b1 b2 : shown_findings (b1 ++ b2) = shown_findings b1 ++ shown_findings b2.
Proof. apply omap_app. Qed.

Lemma remainder_lines_app b1 b2 :
  remainder_lines (b1 ++ b2) = remainder_lines b1 ++ remainder_lines b2.
Proof. apply omap_app. Qed.

Lemma shown_findings_lines fs : shown_findings (FindingLine <$> fs) = fs.
Proof. induction fs as [|f fs IH]; csimpl; [done|]. by rewrite IH. Qed.

Lemma remainder_lines_findings fs : remainder_lines (FindingLine <$> fs) = [].
Proof. induction fs as [|f fs IH]; csimpl; done. Qed.

Lemma shown_findings_section k ms :
  shown_findings (section_body k ms) = take 5 (sorted_by_rank ms).
Proof.
  unfold section_body. rewrite shown_findings_app, shown_findings_lines.
  destruct (5 <? length ms); csimpl; by rewrite app_nil_r.
Qed.

Lemma remainder_lines_section k ms :
  remainder_lines (section_body k ms)
  = if 5 <? length ms then [(length ms - 5, k)] else [].
Proof.
  unfold section_body. rewrite remainder_lines_app, remainder_lines_findings.
  by destruct (5 <? length ms).
Qed.

Lemma category_lines_wf k ms :
  Forall (λ f, wf_finding f = true) ms →
  category_lines k ms = Ok (CategoryHeader k :: section_body k ms).
Proof. intros Hwf. unfold category_lines. by rewrite py_sorted_wf. Qed.

Lemma summary_lines_wf (g : groups) :
  Forall (λ kv, Forall (λ f, wf_finding f = true) kv.2) g →
  summary_lines g = Ok (lines_of g).
Proof.
  unfold lines_of.
  induction 1 as [|[k ms] g Hms _ IH]; csimpl; [done|].
  by rewrite category_lines_wf, IH.
Qed.

Lemma split_sections_summary (g : groups) :
  split_sections (lines_of g) = ([], (λ kv, (kv.1, section_body kv.1 kv.2)) <$> g).
Proof.
  unfold lines_of.
  induction g as [|[k ms] g IH]; csimpl; [done|].
  rewrite split_sections_body by apply section_body_no_header.
  rewrite IH. simpl. by rewrite app_nil_r.
Qed.

Lemma line_text_wf l :
  match l with FindingLine f => wf_finding f = true | _ => True end →
  ∃ t, line_text l = Ok t.
Proof.
  destruct l as [c|f|n c]; simpl; [by eexists| |by eexists].
  destruct f; try done. intros _. by eexists.
Qed.

Lemma result_mapM_total {X Y} (f : X → result Y) (l : list X) :
  Forall (λ x, ∃ y, f x = Ok y) l → ∃ ys, result_mapM f l = Ok ys ∧ length ys = length l.
Proof.
  induction 1 as [|x l [y Hx] _ (ys & IH & Hlen)]; csimpl; [by eexists|].
  rewrite Hx, IH. simpl. eexists. split; [done|]. simpl. by rewrite Hlen.
Qed.

Lemma members_wf fs k :
  Forall (λ f, wf_finding f = true) fs → Forall (λ f, wf_finding f = true) (members fs k).
Proof.
  rewrite !Forall_forall. intros H f Hf%list_elem_of_In%filter_In.
  apply H, list_elem_of_In. tauto.
Qed.

Lemma category_groups_wf fs :
  Forall (λ f, wf_finding f = true) fs →
  Forall (λ kv, Forall (λ f, wf_finding f = true) kv.2) (category_groups fs).
Proof.
  intros Hwf. unfold category_groups. apply Forall_fmap, Forall_forall.
  intros k _. simpl. by apply members_wf.
Qed.

Lemma section_lines_wf (g : groups) :
  Forall (λ kv, Forall (λ f, wf_finding f = true) kv.2) g →
  Forall (λ l, match l with FindingLine f => wf_finding f = true | _ => True end)
    (lines_of g).
Proof.
  unfold lines_of.
  induction 1 as [|[k ms] g Hms _ IH]; csimpl; [done|].
  constructor; [done|]. apply Forall_app. split; [|done].
  unfold section_body. apply Forall_app. split.
  - apply Forall_fmap. eapply Forall_take.
    rewrite sorted_by_rank_perm. done.
  - destruct (5 <? length ms); repeat constructor.
Qed.

End summary.

(** ** Categories in first-occurrence order *)

Section first_occurrences.

Lemma key_mem_intro c ks k : k ∈ ks → py_eqb k c = true → key_mem c ks = true.
Proof.
  intros Hin E. apply existsb_exists. exists k. split; [by apply list_elem_of_In|done].
Qed.

Lemma key_mem_filter_false (p : pyval → bool) c ks :
  key_mem c ks = false → key_mem c (List.filter p ks) = false.
Proof.
  induction ks as [|k ks IH]; simpl; [done|].
  intros [Hk Hc]%orb_false_iff. destruct (p k); simpl; [|by apply IH].
  by rewrite Hk, IH.
Qed.

Lemma keys_distinct_filter (p : pyval → bool) ks :
  keys_distinct ks = true → keys_distinct (List.filter p ks) = true.
Proof.
  induction ks as [|k ks IH]; simpl; [done|].
  intros [[Hk Hn%negb_true_iff]%andb_true_iff Hd]%andb_true_iff.
  destruct (p k); simpl; [|by apply IH].
  by rewrite Hk, key_mem_filter_false, IH.
Qed.

Lemma key_mem_filter_ne x ks :
  key_mem x (List.filter (λ y, negb (py_eqb x y)) ks) = false.
Proof.
  induction ks as [|k ks IH]; simpl; [done|].
  destruct (py_eqb x k) eqn:E; simpl; [done|].
  by rewrite py_eqb_sym, E, IH.
Qed.

Lemma first_occurrences_distinct l :
  Forall (λ c, hashable c = true) l → keys_distinct (first_occurrences l) = true.
Proof.
  induction 1 as [|x l Hx _ IH]; simpl; [done|].
  by rewrite Hx, key_mem_filter_ne, keys_distinct_filter.
Qed.

Lemma first_occurrences_mem c l :
  c ∈ l → hashable c = true → key_mem c (first_occurrences l) = true.
Proof.
  intros Hin Hh. induction l as [|x l IH]; [by apply elem_of_nil in Hin|].
  simpl. destruct (py_eqb x c) eqn:E; [done|]. simpl.
  apply elem_of_cons in Hin as [->|Hin]; [by rewrite py_eqb_refl in E|].
  destruct (key_mem_true _ _ (IH Hin)) as (k & Hk & Ek).
  apply (key_mem_intro _ _ k); [|done].
  apply list_elem_of_In, filter_In. split; [by apply list_elem_of_In|].
  apply negb_true_iff. destruct (py_eqb x k) eqn:Exk; [|done].
  by rewrite (py_eqb_trans x k c) in E.
Qed.

Lemma category_groups_keys fs :
  (category_groups fs).*1 = first_occurrences (category_of <$> fs).
Proof.
  unfold category_groups. rewrite <-list_fmap_compose. apply list_fmap_id.
Qed.

Lemma category_groups_lookup fs i k ms :
  category_groups fs !! i = Some (k, ms) →
  first_occurrences (category_of <$> fs) !! i = Some k ∧ ms = members fs k.
Proof.
  unfold category_groups. rewrite list_lookup_fmap.
  destruct (first_occurrences (category_of <$> fs) !! i) as [k'|]; simpl; [|done].
  by intros [= -> ->].
Qed.

Lemma categories_hashable fs :
  Forall (λ f, wf_finding f = true) fs →
  Forall (λ c, hashable c = true) (category_of <$> fs).
Proof.
  intros H. apply Forall_fmap. eapply Forall_impl; [exact H|].
  intros f. apply wf_finding_category.
Qed.

(** Each finding sits in the group of its category, and in that group only. *)
Lemma category_groups_unique fs f :
  Forall (λ f, wf_finding f = true) fs → f ∈ fs →
  ∃ i k ms,
    category_groups fs !! i = Some (k, ms)
    ∧ f ∈ ms
    ∧ py_eqb k (category_of f) = true
    ∧ ∀ j k' ms', category_groups fs !! j = Some (k', ms') → f ∈ ms' → j = i.
Proof.
  intros Hwf Hin.
  assert (hashable (category_of f) = true) as Hh.
  { apply wf_finding_category. rewrite Forall_forall in Hwf. by apply Hwf. }
  assert (category_of f ∈ category_of <$> fs) as Hc by (by apply list_elem_of_fmap_2).
  destruct (key_mem_true _ _ (first_occurrences_mem _ _ Hc Hh)) as (k & Hk & Ek).
  apply list_elem_of_lookup in Hk as [i Hi].
  exists i, k, (members fs k). split_and!.
  - unfold category_groups. by rewrite list_lookup_fmap, Hi.
  - apply list_elem_of_In, filter_In. split; [by apply list_elem_of_In|done].
  - done.
  - intros j k' ms' Hj Hf. apply category_groups_lookup in Hj as [Hj ->].
    apply list_elem_of_In, filter_In in Hf as [_ Ek'].
    eapply (keys_distinct_lookup _ j i k' k); try done.
    + apply first_occurrences_distinct. by apply categories_hashable.
    + apply (py_eqb_trans _ (category_of f)); [done|]. by rewrite py_eqb_sym.
Qed.

(** The loop puts each finding into one group: nothing is lost or doubled. *)
Lemma groups_append_perm c f (g : groups) :
  key_mem c g.*1 = true → mjoin (groups_append c f g).*2 ≡ₚ f :: mjoin g.*2.
Proof.
  induction g as [|[k ms] g IH]; csimpl; [done|].
  destruct (py_eqb k c) eqn:E; csimpl.
  - intros _. rewrite <-app_assoc. simpl. by rewrite <-Permutation_middle.
  - intros Hc. rewrite IH by done. by rewrite <-Permutation_middle.
Qed.

Lemma group_findings_perm fs : ∀ (g g' : groups),
  group_findings fs g = Ok g' → mjoin g'.*2 ≡ₚ mjoin g.*2 ++ fs.
Proof.
  induction fs as [|f fs IH]; intros g g' H.
  - injection H as <-. by rewrite app_nil_r.
  - destruct f as [| | | | |d]; try done.
    cbn [group_findings py_get mbind result_bind] in H.
    unfold groups_contains in H.
    destruct (hashable (default (VStr "Other") (alist_lookup "category" d))) eqn:Hh;
      [|done].
    cbn [mbind result_bind] in H. apply IH in H. rewrite H.
    apply (Permutation_trans (l' := (VDict d :: mjoin g.*2) ++ fs));
      [|apply Permutation_middle].
    apply Permutation_app_tail.
    rewrite groups_mem_keys.
    destruct (key_mem _ g.*1) eqn:Hc.
    + by apply groups_append_perm.
    + rewrite groups_append_fresh by done.
      rewrite fmap_app, join_app. csimpl. by rewrite <-Permutation_middle, app_nil_r.
Qed.

End first_occurrences.

(** ** The prompt on well-formed findings *)

Section prompt.

Lemma severity_counts_init_lookup label :
  severity_counts_init !! label
  = if bool_decide (label ∈ severity_labels) then Some 0 else None.
Proof.
  unfold severity_counts_init, severity_labels.
  case_bool_decide as H.
  - rewrite !elem_of_cons, elem_of_nil in H.
    destruct H as [->|[->|[->|[->|[->|[]]]]]]; done.
  - rewrite !not_elem_of_cons in H. destruct H as (? & ? & ? & ? & ? & _).
    by rewrite !lookup_insert_ne, lookup_singleton_ne.
Qed.

Lemma count_severities_init fs :
  Forall (λ f, wf_finding f = true) fs →
  count_severities fs severity_counts_init
  = Ok {[ "Critical" := count_of "Critical" fs; "High" := count_of "High" fs;
          "Medium" := count_of "Medium" fs; "Low" := count_of "Low" fs;
          "Informational" := count_of "Informational" fs ]}.
Proof.
  intros Hwf. destruct (count_severities_total fs severity_counts_init Hwf) as [m Hm].
  rewrite Hm. f_equal. apply map_eq. intros label.
  rewrite (count_severities_lookup _ _ _ _ Hm), severity_counts_init_lookup.
  case_bool_decide as H.
  - unfold severity_labels in H. rewrite !elem_of_cons, elem_of_nil in H.
    destruct H as [->|[->|[->|[->|[->|[]]]]]]; done.
  - unfold severity_labels in H.
    rewrite !not_elem_of_cons in H. destruct H as (? & ? & ? & ? & ? & _).
    by rewrite !lookup_insert_ne, lookup_singleton_ne.
Qed.

Lemma prepare_prompt_wf findings :
  Forall (λ f, wf_finding f = true) findings →
  ∃ texts,
    result_mapM line_text (lines_of (category_groups findings)) = Ok texts
    ∧ length texts = length (lines_of (category_groups findings))
    ∧ prepare_prompt findings
      = Ok (format_prompt (length findings)
              (count_of "Critical" findings) (count_of "High" findings)
              (count_of "Medium" findings) (count_of "Low" findings)
              (count_of "Informational" findings) texts).
Proof.
  intros Hwf.
  destruct (result_mapM_total line_text (lines_of (category_groups findings)))
    as (texts & Ht & Hlen).
  { eapply Forall_impl; [apply section_lines_wf, category_groups_wf, Hwf|].
    apply line_text_wf. }
  exists texts. split_and!; [done..|].
  unfold prepare_prompt.
  rewrite count_severities_init, group_findings_category_groups by done.
  cbn [mbind result_bind]. unfold findings_summary.
  rewrite summary_lines_wf by by apply category_groups_wf.
  cbn [mbind result_bind]. rewrite Ht. done.
Qed.

(** [prepare_prompt] returns on the well-formed findings, and on them only. *)
Lemma count_severities_ok fs : ∀ m m',
  count_severities fs m = Ok m' →
  Forall (λ f, ∃ d, f = VDict d
               ∧ hashable (default VNone (alist_lookup "severity" d)) = true) fs.
Proof.
  induction fs as [|f fs IH]; intros m m' H; [done|].
  destruct f as [| | | | |d]; try done.
  cbn [count_severities py_get mbind result_bind] in H.
  destruct (default VNone (alist_lookup "severity" d)) as [| | |s| |] eqn:E;
    simpl in H; try done;
    try (constructor; [exists d; by rewrite E|by eapply IH]).
  constructor; [exists d; by rewrite E|].
  destruct (bool_decide (is_Some (m !! s))); simpl in H; [|by eapply IH].
  destruct (m !! s); simpl in H; [by eapply IH|done].
Qed.

Lemma group_findings_ok fs : ∀ (g g' : groups),
  group_findings fs g = Ok g' →
  Forall (λ f, ∃ d, f = VDict d
               ∧ hashable (default (VStr "Other") (alist_lookup "category" d)) = true) fs.
Proof.
  induction fs as [|f fs IH]; intros g g' H; [done|].
  destruct f as [| | | | |d]; try done.
  cbn [group_findings py_get mbind result_bind] in H. unfold groups_contains in H.
  destruct (hashable (default (VStr "Other") (alist_lookup "category" d))) eqn:Hh; [|done].
  constructor; [by exists d|]. cbn [mbind result_bind] in H. by eapply IH.
Qed.

Lemma prepare_prompt_ok_iff findings :
  (∃ prompt, prepare_prompt findings = Ok prompt)
  ↔ Forall (λ f, wf_finding f = true) findings.
Proof.
  split.
  - intros [prompt H]. unfold prepare_prompt in H.
    apply bind_Ok in H as (counts & Hc%count_severities_ok & H).
    apply bind_Ok in H as (g & Hg%group_findings_ok & _).
    rewrite Forall_forall in Hc, Hg. apply Forall_forall. intros f Hf.
    destruct (Hc f Hf) as (d & -> & Hs). destruct (Hg _ Hf) as (d' & [= <-] & Hcat).
    simpl. by rewrite Hs, Hcat.
  - intros Hwf. destruct (prepare_prompt_wf findings Hwf) as (texts & _ & _ & H).
    eauto.
Qed.

End prompt.

(** * Main results *)

(** C1: the entry point returns a narrative for every client handle and every
    findings list, it never raises: when the prompt builder or the model
    invoker raises, the narrative is the fallback text, and otherwise it is
    what the extractor gives for the response. *)
Theorem get_ai_analysis_never_raises (bedrock_client : client) (findings : list pyval) :
  ∃ narrative,
    get_ai_analysis bedrock_client findings = Ok narrative
    ∧ match prepare_prompt findings with
      | Raise _ => narrative = generate_fallback_narrative
      | Ok prompt =>
          match invoke_claude_model bedrock_client prompt with
          | Raise _ => narrative = generate_fallback_narrative
          | Ok response => extract_narrative_claude response = Ok narrative
          end
      end.
Proof.
  unfold get_ai_analysis.
  destruct (prepare_prompt findings) as [prompt|e]; cbn [mbind result_bind try_except];
    [|by eexists].
  destruct (invoke_claude_model bedrock_client prompt) as [response|e];
    cbn [mbind result_bind try_except]; [|by eexists].
  destruct (extract_total response) as [narrative H]. exists narrative.
  by rewrite H.
Qed.

(** The model invoker raises what the client raised, and returns what it
    returned. *)
Lemma invoke_claude_model_client (bedrock : client) prompt :
  invoke_claude_model bedrock prompt
  = bedrock {| modelId := model_id; contentType := "application/json";
               accept := "application/json"; body := build_request prompt |}.
Proof. unfold invoke_claude_model. by destruct (bedrock _). Qed.

(** Scenario 3: a client that times out. *)
Lemma get_ai_analysis_timeout :
  get_ai_analysis (λ _, Raise (ClientError "Read timeout on endpoint URL")) six_iam
  = Ok generate_fallback_narrative.
Proof. vm_compute. reflexivity. Qed.

(** C3: on the findings the summarizer accepts, each of the five counts is the
    number of findings of that severity, the five counts add up to the number
    of findings with a recognized severity, the other findings change no
    count, and each of them is in a group all the same. *)
Theorem severity_counts_sum (findings : list pyval) :
  Forall (λ f, wf_finding f = true) findings →
  ∃ (counts : gmap string nat) (by_category : groups),
    count_severities findings severity_counts_init = Ok counts
    ∧ group_findings findings [] = Ok by_category
    ∧ counts = {[ "Critical" := count_of "Critical" findings;
                  "High" := count_of "High" findings;
                  "Medium" := count_of "Medium" findings;
                  "Low" := count_of "Low" findings;
                  "Informational" := count_of "Informational" findings ]}
    ∧ count_of "Critical" findings + count_of "High" findings
      + count_of "Medium" findings + count_of "Low" findings
      + count_of "Informational" findings
      = length (List.filter recognized findings)
    ∧ count_severities (List.filter recognized findings) severity_counts_init = Ok counts
    ∧ ∀ f, f ∈ findings → recognized f = false →
        ∃ k ms, (k, ms) ∈ by_category ∧ f ∈ ms.
Proof.
  intros Hwf. eexists _, (category_groups findings). split_and!.
  - by apply count_severities_init.
  - by apply group_findings_category_groups.
  - done.
  - apply recognized_count.
  - rewrite count_severities_recognized; [by apply count_severities_init| |done].
    intros s Hs. rewrite severity_counts_init_lookup in Hs.
    case_bool_decide; [done|]. by destruct Hs.
  - intros f Hf _.
    destruct (category_groups_unique findings f Hwf Hf) as (i & k & ms & Hi & Hin & _).
    exists k, ms. split; [|done]. by eapply list_elem_of_lookup_2.
Qed.

(** C4: on the findings the summarizer accepts, the groups hold the findings,
    each once; a finding is in one group only; and a finding with no
    [category] key is in the group of ["Other"]. *)
Theorem each_finding_in_one_group (findings : list pyval) :
  Forall (λ f, wf_finding f = true) findings →
  ∃ by_category : groups,
    group_findings findings [] = Ok by_category
    ∧ mjoin by_category.*2 ≡ₚ findings
    ∧ (∀ f, f ∈ findings →
         ∃ i k ms,
           by_category !! i = Some (k, ms) ∧ f ∈ ms
           ∧ ∀ j k' ms', by_category !! j = Some (k', ms') → f ∈ ms' → j = i)
    ∧ (∀ d, VDict d ∈ findings → alist_lookup "category" d = None →
         ∃ ms, (VStr "Other", ms) ∈ by_category ∧ VDict d ∈ ms).
Proof.
  intros Hwf. exists (category_groups findings).
  pose proof (group_findings_category_groups findings Hwf) as Hg. split_and!.
  - done.
  - by apply group_findings_perm in Hg.
  - intros f Hf.
    destruct (category_groups_unique findings f Hwf Hf) as (i & k & ms & Hi & Hin & _ & Hu).
    by exists i, k, ms.
  - intros d Hd Hc.
    destruct (category_groups_unique findings _ Hwf Hd) as (i & k & ms & Hi & Hin & Ek & _).
    rewrite category_of_dict, Hc in Ek. apply py_eqb_str in Ek as ->.
    exists ms. split; [|done]. by eapply list_elem_of_lookup_2.
Qed.

(** C9: a finding whose [category] key holds [None] is in the group of the key
    [None] and not in the group of ["Other"]; what is in the group of
    ["Other"] has no [category] key, or has the category ["Other"]. *)
Theorem null_category_grouped_under_none (findings : list pyval) d :
  Forall (λ f, wf_finding f = true) findings →
  VDict d ∈ findings →
  alist_lookup "category" d = Some VNone →
  ∃ by_category : groups,
    group_findings findings [] = Ok by_category
    ∧ (∃ ms, (VNone, ms) ∈ by_category ∧ VDict d ∈ ms)
    ∧ (∀ ms, (VStr "Other", ms) ∈ by_category → VDict d ∉ ms)
    ∧ (∀ d' ms, (VStr "Other", ms) ∈ by_category → VDict d' ∈ ms →
         alist_lookup "category" d' = None
         ∨ alist_lookup "category" d' = Some (VStr "Other")).
Proof.
  intros Hwf Hd Hc. exists (category_groups findings).
  assert (∀ d' ms, (VStr "Other", ms) ∈ category_groups findings → VDict d' ∈ ms →
            default (VStr "Other") (alist_lookup "category" d') = VStr "Other") as Hother.
  { intros d' ms [j Hj]%list_elem_of_lookup Hin.
    apply category_groups_lookup in Hj as [_ ->].
    apply list_elem_of_In, filter_In in Hin as [_ E].
    rewrite category_of_dict, py_eqb_sym in E. by apply py_eqb_str in E. }
  split_and!.
  - by apply group_findings_category_groups.
  - destruct (category_groups_unique findings _ Hwf Hd) as (i & k & ms & Hi & Hin & Ek & _).
    rewrite category_of_dict, Hc in Ek. apply py_eqb_none in Ek as ->.
    exists ms. split; [|done]. by eapply list_elem_of_lookup_2.
  - intros ms Hms Hin. specialize (Hother d ms Hms Hin). by rewrite Hc in Hother.
  - intros d' ms Hms Hin. specialize (Hother d' ms Hms Hin).
    destruct (alist_lookup "category" d') as [v|]; [|by left].
    right. simpl in Hother. by rewrite Hother.
Qed.

(** ** Ranks *)

Lemma severity_order_lookup label :
  label ∉ severity_labels → severity_order !! label = None.
Proof.
  unfold severity_order, severity_labels. rewrite !not_elem_of_cons.
  intros (? & ? & ? & ? & ? & _).
  by rewrite !lookup_insert_ne, lookup_singleton_ne.
Qed.

Lemma py_dict_get_unrecognized v :
  hashable v = true → is_label v = false → py_dict_get severity_order v 999 = Ok 999.
Proof.
  destruct v as [| | |s| |]; simpl; try done.
  intros _ H%bool_decide_eq_false. by rewrite severity_order_lookup.
Qed.

Lemma rank_of_dict d :
  rank_of (VDict d) = severity_rank (default (VStr "Low") (alist_lookup "severity" d)).
Proof. done. Qed.

Lemma rank_of_label label f n :
  has_severity label f = true → severity_order !! label = Some n → rank_of f = n.
Proof.
  destruct f as [| | | | |d]; try done. rewrite rank_of_dict. simpl.
  destruct (alist_lookup "severity" d) as [[| | |s| |]|]; try done.
  intros ->%bool_decide_eq_true H. unfold severity_rank. simpl. by rewrite H.
Qed.

Lemma rank_of_unrecognized d v :
  alist_lookup "severity" d = Some v → hashable v = true → is_label v = false →
  rank_of (VDict d) = 999.
Proof.
  intros Hd Hh Hl. rewrite rank_of_dict, Hd. unfold severity_rank. simpl.
  by rewrite py_dict_get_unrecognized.
Qed.

Lemma wf_finding_severity d v :
  wf_finding (VDict d) = true → alist_lookup "severity" d = Some v → hashable v = true.
Proof. simpl. intros [H _]%andb_true_iff E. by rewrite E in H. Qed.

(** C5: on the findings the prompt builder accepts, the sections of the summary
    are the categories in the order they first occur in the input; the findings
    a section shows are the first five of its group sorted by rank, the sort
    moving no finding past one of the same rank; and the ranks grow from
    Critical through High, Medium, Low and Informational to the severities that
    are none of the five. *)
Theorem prompt_order (findings : list pyval) :
  Forall (λ f, wf_finding f = true) findings →
  ∃ (by_category : groups) (lines : list summary_line) (texts : list string),
    group_findings findings [] = Ok by_category
    ∧ summary_lines by_category = Ok lines
    ∧ result_mapM line_text lines = Ok texts
    ∧ prepare_prompt findings
      = Ok (format_prompt (length findings)
              (count_of "Critical" findings) (count_of "High" findings)
              (count_of "Medium" findings) (count_of "Low" findings)
              (count_of "Informational" findings) texts)
    ∧ (split_sections lines).1 = []
    ∧ (split_sections lines).2.*1 = first_occurrences (category_of <$> findings)
    ∧ Forall2 (λ grp sec,
         sec.1 = grp.1
         ∧ ∃ s, s ≡ₚ grp.2
              ∧ StronglySorted (λ a b, rank_of a ≤ rank_of b) s
              ∧ (∀ n, List.filter (λ f, rank_of f =? n) s
                      = List.filter (λ f, rank_of f =? n) grp.2)
              ∧ shown_findings sec.2 = take 5 s)
        by_category (split_sections lines).2
    ∧ (∀ d, rank_of (VDict d)
            = severity_rank (default (VStr "Low") (alist_lookup "severity" d)))
    ∧ severity_rank (VStr "Critical") < severity_rank (VStr "High")
      < severity_rank (VStr "Medium")
    ∧ severity_rank (VStr "Medium") < severity_rank (VStr "Low")
      < severity_rank (VStr "Informational")
    ∧ ∀ v, hashable v = true → is_label v = false →
        severity_rank (VStr "Informational") < severity_rank v.
Proof.
  intros Hwf.
  destruct (prepare_prompt_wf findings Hwf) as (texts & Ht & _ & Hp).
  exists (category_groups findings), (lines_of (category_groups findings)), texts.
  rewrite split_sections_summary. split_and!; try done.
  - by apply group_findings_category_groups.
  - by apply summary_lines_wf, category_groups_wf.
  - cbn [snd]. rewrite <-list_fmap_compose. apply category_groups_keys.
  - cbn [snd]. apply Forall2_fmap_r, Forall_Forall2_diag, Forall_forall.
    intros [k ms] _. simpl. split; [done|].
    exists (sorted_by_rank ms). split_and!.
    + apply sorted_by_rank_perm.
    + apply sorted_by_rank_sorted.
    + intros n. apply sorted_by_rank_stable.
    + apply shown_findings_section.
  - vm_compute. lia.
  - vm_compute. lia.
  - vm_compute. lia.
  - vm_compute. lia.
  - intros v Hh Hl. unfold severity_rank at 2.
    rewrite py_dict_get_unrecognized by done. vm_compute. lia.
Qed.

(** C6: on the findings the prompt builder accepts, the section of a category
    shows the first findings of its group, five at most, then one remainder
    line with the size of the group less five when the group has more than
    five findings, and nothing else. *)
Theorem at_most_five_lines_per_category (findings : list pyval) :
  Forall (λ f, wf_finding f = true) findings →
  ∃ (by_category : groups) (lines : list summary_line) (texts : list string),
    group_findings findings [] = Ok by_category
    ∧ summary_lines by_category = Ok lines
    ∧ result_mapM line_text lines = Ok texts
    ∧ prepare_prompt findings
      = Ok (format_prompt (length findings)
              (count_of "Critical" findings) (count_of "High" findings)
              (count_of "Medium" findings) (count_of "Low" findings)
              (count_of "Informational" findings) texts)
    ∧ (split_sections lines).1 = []
    ∧ Forall2 (λ grp sec,
         sec.1 = grp.1
         ∧ sec.2 = (FindingLine <$> shown_findings sec.2)
                   ++ ((λ r, MoreLine r.1 r.2) <$> remainder_lines sec.2)
         ∧ length (shown_findings sec.2) = length grp.2 `min` 5
         ∧ length (shown_findings sec.2) ≤ 5
         ∧ remainder_lines sec.2
           = if 5 <? length grp.2 then [(length grp.2 - 5, grp.1)] else [])
        by_category (split_sections lines).2.
Proof.
  intros Hwf.
  destruct (prepare_prompt_wf findings Hwf) as (texts & Ht & _ & Hp).
  exists (category_groups findings), (lines_of (category_groups findings)), texts.
  rewrite split_sections_summary. split_and!; try done.
  - by apply group_findings_category_groups.
  - by apply summary_lines_wf, category_groups_wf.
  - cbn [snd]. apply Forall2_fmap_r, Forall_Forall2_diag, Forall_forall.
    intros [k ms] _. simpl.
    rewrite shown_findings_section, remainder_lines_section.
    rewrite length_take, sorted_by_rank_length. split_and!; try done; [|lia..].
    unfold section_body. by destruct (5 <? length ms).
Qed.

(** C10: the sort gives rank 3, the rank of Low, to a finding with no
    [severity] key, and rank 999 to one whose severity is none of the five
    labels; so in the sorted group the first comes before any Informational
    finding and keeps its place among the Low ones, and the second comes after
    any Informational finding. *)
Theorem missing_severity_ranks_as_low :
  (∀ d, alist_lookup "severity" d = None → sort_key (VDict d) = Ok 3)
  ∧ (∀ d, alist_lookup "severity" d = Some (VStr "Low") → sort_key (VDict d) = Ok 3)
  ∧ (∀ d, alist_lookup "severity" d = Some (VStr "Informational") →
       sort_key (VDict d) = Ok 4)
  ∧ (∀ d v, alist_lookup "severity" d = Some v → hashable v = true → is_label v = false →
       sort_key (VDict d) = Ok 999)
  ∧ (∀ ms, Forall (λ f, wf_finding f = true) ms →
       ∃ s, py_sorted sort_key ms = Ok s
          ∧ s ≡ₚ ms
          ∧ (∀ i j da b, s !! i = Some (VDict da) → s !! j = Some b →
               alist_lookup "severity" da = None →
               has_severity "Informational" b = true → i < j)
          ∧ (∀ i j a db v, s !! i = Some a → s !! j = Some (VDict db) →
               has_severity "Informational" a = true →
               alist_lookup "severity" db = Some v → is_label v = false → i < j)
          ∧ List.filter (λ f, rank_of f =? 3) s = List.filter (λ f, rank_of f =? 3) ms).
Proof.
  split_and!.
  - intros d H. unfold sort_key. cbn [py_get mbind result_bind]. by rewrite H.
  - intros d H. unfold sort_key. cbn [py_get mbind result_bind]. by rewrite H.
  - intros d H. unfold sort_key. cbn [py_get mbind result_bind]. by rewrite H.
  - intros d v H Hh Hl. unfold sort_key. cbn [py_get mbind result_bind]. rewrite H.
    by apply py_dict_get_unrecognized.
  - intros ms Hwf. exists (sorted_by_rank ms). split_and!.
    + by apply py_sorted_wf.
    + apply sorted_by_rank_perm.
    + intros i j da b Hi Hj Hda Hb.
      apply (sorted_rank_before _ i j _ _ (sorted_by_rank_sorted ms) Hi Hj).
      rewrite (rank_of_label "Informational" b 4) by done.
      rewrite rank_of_dict, Hda. vm_compute. lia.
    + intros i j a db v Hi Hj Ha Hdb Hv.
      apply (sorted_rank_before _ i j _ _ (sorted_by_rank_sorted ms) Hi Hj).
      rewrite (rank_of_label "Informational" a 4) by done.
      rewrite (rank_of_unrecognized db v); [lia|done| |done].
      apply (wf_finding_severity db); [|done].
      apply list_elem_of_lookup_2 in Hj. rewrite sorted_by_rank_perm in Hj.
      rewrite Forall_forall in Hwf. by apply Hwf.
    + apply sorted_by_rank_stable.
Qed.

(** * The results on concrete inputs *)

Lemma severity_counts_sum_witness :
  ∃ counts : gmap string nat,
    count_severities mixed_findings severity_counts_init = Ok counts
    ∧ counts !! "Critical" = Some 1
    ∧ counts !! "Informational" = Some 1
    ∧ length (List.filter recognized mixed_findings) = 2.
Proof.
  destruct (severity_counts_sum mixed_findings) as (counts & g & Hc & _ & -> & _).
  - repeat constructor.
  - eexists. split; [exact Hc|]. split_and!; reflexivity.
Defined.

Lemma each_finding_in_one_group_witness :
  ∃ by_category : groups,
    group_findings mixed_findings [] = Ok by_category
    ∧ mjoin by_category.*2 ≡ₚ mixed_findings
    ∧ ∃ ms, (VStr "Other", ms) ∈ by_category
            ∧ VDict [("description", VStr "public bucket")] ∈ ms.
Proof.
  destruct (each_finding_in_one_group mixed_findings) as (g & Hg & Hp & _ & Ho).
  - repeat constructor.
  - exists g. split_and!; [exact Hg|exact Hp|].
    apply Ho; [|reflexivity]. repeat constructor.
Defined.

Lemma null_category_grouped_under_none_witness :
  ∃ by_category : groups,
    group_findings mixed_findings [] = Ok by_category
    ∧ ∃ ms, (VNone, ms) ∈ by_category
            ∧ VDict [("severity", VStr "Urgent"); ("category", VNone)] ∈ ms.
Proof.
  destruct (null_category_grouped_under_none mixed_findings
              [("severity", VStr "Urgent"); ("category", VNone)])
    as (g & Hg & Hn & _).
  - repeat constructor.
  - repeat constructor.
  - reflexivity.
  - exists g. split; [exact Hg|exact Hn].
Defined.

Lemma prompt_order_witness :
  ∃ (lines : list summary_line) (texts : list string),
    result_mapM line_text lines = Ok texts
    ∧ (split_sections lines).2.*1 = [VStr "IAM"; VNone; VStr "Other"].
Proof.
  destruct (prompt_order mixed_findings)
    as (g & lines & texts & _ & _ & Ht & _ & _ & Hk & _).
  - repeat constructor.
  - exists lines, texts. split; [exact Ht|]. rewrite Hk. reflexivity.
Defined.

Lemma at_most_five_lines_per_category_witness :
  ∃ (by_category : groups) (lines : list summary_line),
    group_findings six_iam [] = Ok by_category
    ∧ summary_lines by_category = Ok lines
    ∧ (split_sections lines).1 = [].
Proof.
  destruct (at_most_five_lines_per_category six_iam)
    as (g & lines & texts & Hg & Hl & _ & _ & He & _).
  - repeat constructor.
  - exists g, lines. split_and!; [exact Hg|exact Hl|exact He].
Defined.

Lemma missing_severity_ranks_as_low_witness :
  sort_key (VDict [("description", VStr "public bucket")]) = Ok 3
  ∧ sort_key (VDict [("severity", VStr "Urgent"); ("category", VNone)]) = Ok 999.
Proof.
  split.
  - apply (proj1 missing_severity_ranks_as_low). reflexivity.
  - apply (proj1 (proj2 (proj2 (proj2 missing_severity_ranks_as_low)))
             [("severity", VStr "Urgent"); ("category", VNone)] (VStr "Urgent"));
      reflexivity.
Defined.

(** Scenario 1: no findings. *)
Example prepare_prompt_empty :
  count_severities [] severity_counts_init = Ok severity_counts_init
  ∧ summary_lines [] = Ok []
  ∧ prepare_prompt [] = Ok (format_prompt 0 0 0 0 0 0 []).
Proof. split_and!; reflexivity. Qed.

(** Scenario 2: six IAM findings.  The sort is stable, so the Low finding that
    comes first in the input is shown before the other one. *)
Example summary_lines_six_iam :
  (lines ← (g ← group_findings six_iam []; summary_lines g);
   Ok (split_sections lines))
  = Ok ([], [(VStr "IAM",
              [FindingLine (finding_of "Critical" "IAM" "b");
               FindingLine (finding_of "High" "IAM" "c");
               FindingLine (finding_of "Medium" "IAM" "e");
               FindingLine (finding_of "Low" "IAM" "a");
               FindingLine (finding_of "Low" "IAM" "d");
               MoreLine 1 (VStr "IAM")])]).
Proof. vm_compute. reflexivity. Qed.

(** The keys [True] and [1] are one key of the dict, as [1 == True]. *)
Example group_findings_bool_int :
  group_findings [VDict [("category", VBool true)]; VDict [("category", VInt 1)]] []
  = Ok [(VBool true, [VDict [("category", VBool true)]; VDict [("category", VInt 1)]])].
Proof. reflexivity. Qed.

(** A finding that is no dict, or whose severity cannot be hashed, makes the
    prompt builder raise, and the entry point answers with the fallback. *)
Example get_ai_analysis_bad_finding :
  prepare_prompt [VStr "finding"] = Raise AttributeError
  ∧ prepare_prompt [VDict [("severity", VList [])]] = Raise TypeError
  ∧ get_ai_analysis (λ _, Ok hello_world_response) [VStr "finding"]
    = Ok generate_fallback_narrative
  ∧ get_ai_analysis (λ _, Ok hello_world_response) six_iam = Ok "Hello world".
Proof. split_and!; vm_compute; reflexivity. Qed.

(** * Further properties *)

(** ** When the prompt builder raises *)

Section prompt_errors.




Lemma not_wf_raises findings :
  Exists (λ f, wf_finding f = false) findings → ∃ e, prepare_prompt findings = Raise e.
Proof.
  intros Hbad. destruct (prepare_prompt findings) as [p|e] eqn:E; [|by eexists].
  exfalso. assert (Forall (λ f, wf_finding f = true) findings) as Hwf.
  { apply prepare_prompt_ok_iff. by eexists. }
  apply Exists_exists in Hbad as (f & Hin & Hf).
  rewrite Forall_forall in Hwf. by rewrite (Hwf f Hin) in Hf.
Qed.


End prompt_errors.



(** X6: a finding that is no dict, or whose severity or category cannot be
    hashed, makes the entry point answer with the fallback narrative, whatever
    the client would return: the client is not reached. *)
Theorem get_ai_analysis_bad_findings (bedrock_client : client) (findings : list pyval) :
  Exists (λ f, wf_finding f = false) findings →
  get_ai_analysis bedrock_client findings = Ok generate_fallback_narrative.
Proof.
  intros [e H]%not_wf_raises. unfold get_ai_analysis. by rewrite H.
Qed.

Lemma get_ai_analysis_bad_findings_witness :
  get_ai_analysis (λ _, Ok hello_world_response)
    [finding_of "High" "IAM" "a"; VDict [("severity", VDict [])]]
  = Ok generate_fallback_narrative.
Proof.
  apply get_ai_analysis_bad_findings.
  apply Exists_cons_tl, Exists_cons_hd. reflexivity.
Defined.


(** ** When the extractor falls back *)

Section extraction_errors.

Lemma concat_text_parts_bad parts : ∀ narrative,
  Exists (λ p, wf_part p = false) parts →
  ∃ e, concat_text_parts narrative parts = Raise e.
Proof.
  induction parts as [|p parts IH]; intros narrative Hbad; [by apply Exists_nil in Hbad|].
  destruct p as [| | | | |d]; try by eexists.
  cbn [concat_text_parts py_get mbind result_bind].
  rewrite text_test_is_text_part.
  apply Exists_cons in Hbad as [Hp|Hbad].
  - unfold wf_part in Hp.
    destruct (is_text_part (VDict d)); [|done]. simpl in Hp.
    destruct (alist_lookup "text" d) as [[| | | | |]|]; try done; by eexists.
  - destruct (is_text_part (VDict d)); [|by apply IH].
    destruct (default (VStr EmptyString) (alist_lookup "text" d)); simpl;
      try by eexists.
    by apply IH.
Qed.

Lemma extract_raise_fallback d parts e :
  py_iter (default (VList []) (alist_lookup "content" d)) = Ok parts →
  concat_text_parts EmptyString parts = Raise e →
  extract_narrative_claude (VDict d) = Ok generate_fallback_narrative.
Proof.
  intros Hi Hc. unfold extract_narrative_claude.
  cbn [py_get mbind result_bind]. rewrite Hi. cbn [mbind result_bind].
  by rewrite Hc.
Qed.

End extraction_errors.

(** X2: when one part of the [content] list is malformed (it is no dict, or its
    type is ["text"] and its text is no str), the extractor returns the
    fallback narrative: the text gathered from the parts before it is dropped,
    no partial narrative comes out. *)
Theorem extract_malformed_part_fallback d (parts : list pyval) :
  alist_lookup "content" d = Some (VList parts) →
  Exists (λ p, wf_part p = false) parts →
  extract_narrative_claude (VDict d) = Ok generate_fallback_narrative.
Proof.
  intros Hc Hbad.
  destruct (concat_text_parts_bad parts EmptyString Hbad) as [e He].
  apply (extract_raise_fallback d parts e); [by rewrite Hc|done].
Qed.

Lemma extract_malformed_part_fallback_witness :
  extract_narrative_claude
    (VDict [("content", VList [VDict [("type", VStr "text"); ("text", VStr "Summary")];
                               VDict [("type", VStr "text"); ("text", VNone)]])])
  = Ok generate_fallback_narrative.
Proof.
  apply (extract_malformed_part_fallback _
           [VDict [("type", VStr "text"); ("text", VStr "Summary")];
            VDict [("type", VStr "text"); ("text", VNone)]]).
  - reflexivity.
  - apply Exists_cons_tl, Exists_cons_hd. reflexivity.
Defined.

(** X3: when [content] is present and is no list, the extractor returns the
    empty string for the empty str and the empty dict, which the loop walks
    without a step, and the fallback narrative for every other value: [None],
    a bool and an int are not iterable, and the characters of a str and the
    keys of a dict have no [get]. *)
Theorem extract_content_not_list d v :
  alist_lookup "content" d = Some v →
  (∀ l, v ≠ VList l) →
  extract_narrative_claude (VDict d)
  = Ok (if iterates_empty v then EmptyString else generate_fallback_narrative).
Proof.
  intros Hc Hv. unfold extract_narrative_claude.
  cbn [py_get mbind result_bind]. rewrite Hc. simpl.
  destruct v as [| | |s|l|kvs]; try done.
  - by destruct s.
  - by destruct (Hv l).
  - by destruct kvs.
Qed.

Lemma extract_content_not_list_witness :
  extract_narrative_claude (VDict [("content", VStr "All clear")])
  = Ok generate_fallback_narrative
  ∧ extract_narrative_claude (VDict [("content", VDict [])]) = Ok EmptyString.
Proof.
  split.
  - apply (extract_content_not_list [("content", VStr "All clear")] (VStr "All clear"));
      [reflexivity|discriminate].
  - apply (extract_content_not_list [("content", VDict [])] (VDict []));
      [reflexivity|discriminate].
Defined.

(** X4: on a well-formed response the extractor drops whitespace at the two
    ends of the joined text and nothing else: the joined text is the narrative
    between two runs of whitespace, and the narrative neither starts nor ends
    with whitespace. *)
Theorem extract_drops_outer_whitespace_only d (parts : list pyval) :
  alist_lookup "content" d = Some (VList parts) →
  Forall (λ p, wf_part p = true) parts →
  ∃ narrative pre post,
    extract_narrative_claude (VDict d) = Ok narrative
    ∧ concat_strings (part_text <$> List.filter is_text_part parts)
      = pre +:+ narrative +:+ post
    ∧ all_space pre = true ∧ all_space post = true
    ∧ match first_char narrative with Some c => py_isspace c = false | None => True end
    ∧ match last_char narrative with Some c => py_isspace c = false | None => True end.
Proof.
  intros Hc Hwf.
  destruct (strip_spec (concat_strings (part_text <$> List.filter is_text_part parts)))
    as (pre & post & Hs & Hpre & Hpost & Hf & Hl).
  eexists _, pre, post. split; [by apply extract_well_formed|]. by split_and!.
Qed.

Lemma extract_drops_outer_whitespace_only_witness :
  ∃ narrative pre post,
    extract_narrative_claude hello_world_response = Ok narrative
    ∧ "Hello world" = pre +:+ narrative +:+ post.
Proof.
  destruct (extract_drops_outer_whitespace_only
              [("content",
                VList [VDict [("type", VStr "text"); ("text", VStr "Hello ")];
                       VDict [("type", VStr "other")];
                       VDict [("type", VStr "text"); ("text", VStr "world")]])]
              [VDict [("type", VStr "text"); ("text", VStr "Hello ")];
               VDict [("type", VStr "other")];
               VDict [("type", VStr "text"); ("text", VStr "world")]])
    as (narrative & pre & post & He & Hs & _).
  - reflexivity.
  - repeat constructor.
  - exists narrative, pre, post. split; [exact He|exact Hs].
Defined.

(** ** The groups *)

Section groups_shape.

Lemma first_occurrences_subset l k : k ∈ first_occurrences l → k ∈ l.
Proof.
  revert k. induction l as [|x l IH]; intros k; simpl; [done|].
  intros [->|Hin]%elem_of_cons; [by left|].
  right. apply IH. apply list_elem_of_In in Hin. apply filter_In in Hin as [Hin _].
  by apply list_elem_of_In.
Qed.

Lemma category_groups_nonempty fs :
  Forall (λ f, wf_finding f = true) fs →
  Forall (λ kv, kv.2 ≠ []) (category_groups fs).
Proof.
  intros Hwf. unfold category_groups. apply Forall_fmap, Forall_forall.
  intros k Hk%first_occurrences_subset. simpl.
  apply list_elem_of_fmap in Hk as (f & -> & Hf).
  intros E. assert (In f []) as []. rewrite <-E. apply filter_In.
  split; [by apply list_elem_of_In|].
  apply py_eqb_refl, wf_finding_category. rewrite Forall_forall in Hwf. by apply Hwf.
Qed.




End groups_shape.

(** X7: on the findings the grouping loop accepts, the dict of groups holds no
    empty group and no two equal keys, every key is the category of a finding
    of the input, and a group lists the findings of its category in the order
    of the input. *)
Theorem groups_keep_input_order (findings : list pyval) :
  Forall (λ f, wf_finding f = true) findings →
  ∃ by_category : groups,
    group_findings findings [] = Ok by_category
    ∧ keys_distinct by_category.*1 = true
    ∧ Forall (λ kv,
         kv.2 ≠ []
         ∧ kv.1 ∈ category_of <$> findings
         ∧ kv.2 = List.filter (λ f, py_eqb kv.1 (category_of f)) findings)
        by_category.
Proof.
  intros Hwf. exists (category_groups findings). split_and!.
  - by apply group_findings_category_groups.
  - rewrite category_groups_keys.
    by apply first_occurrences_distinct, categories_hashable.
  - pose proof (category_groups_nonempty findings Hwf) as Hne.
    rewrite Forall_forall in Hne. apply Forall_forall. intros [k ms] Hin.
    split; [by apply (Hne (k, ms))|].
    apply list_elem_of_lookup in Hin as [i Hi].
    apply category_groups_lookup in Hi as [Hi ->]. split; [|done].
    simpl. by eapply first_occurrences_subset, list_elem_of_lookup_2.
Qed.

Lemma groups_keep_input_order_witness :
  ∃ by_category : groups,
    group_findings mixed_findings [] = Ok by_category
    ∧ keys_distinct by_category.*1 = true.
Proof.
  destruct (groups_keep_input_order mixed_findings) as (g & Hg & Hd & _).
  - repeat constructor.
  - exists g. split; [exact Hg|exact Hd].
Defined.

(** X8: two findings of the input share a group exactly when their categories
    are equal as dict keys; so the categories [True] and [1], which Python
    compares equal, are one group. *)
Theorem same_group_iff_equal_category (findings : list pyval) f1 f2 :
  Forall (λ f, wf_finding f = true) findings →
  f1 ∈ findings → f2 ∈ findings →
  ∃ by_category : groups,
    group_findings findings [] = Ok by_category
    ∧ ((∃ k ms, (k, ms) ∈ by_category ∧ f1 ∈ ms ∧ f2 ∈ ms)
       ↔ py_eqb (category_of f1) (category_of f2) = true).
Proof.
  intros Hwf H1 H2. exists (category_groups findings).
  split; [by apply group_findings_category_groups|]. split.
  - intros (k & ms & [i Hi]%list_elem_of_lookup & Hf1 & Hf2).
    apply category_groups_lookup in Hi as [_ ->].
    apply list_elem_of_In, filter_In in Hf1 as [_ E1].
    apply list_elem_of_In, filter_In in Hf2 as [_ E2].
    apply (py_eqb_trans _ k); [by rewrite py_eqb_sym|done].
  - intros E.
    destruct (category_groups_unique findings f1 Hwf H1) as (i & k & ms & Hi & Hin & Ek & _).
    exists k, ms. split_and!; [by eapply list_elem_of_lookup_2|done|].
    apply category_groups_lookup in Hi as [_ ->].
    apply list_elem_of_In, filter_In. split; [by apply list_elem_of_In|].
    by apply (py_eqb_trans _ (category_of f1)).
Qed.

Lemma same_group_iff_equal_category_witness :
  ∃ (by_category : groups) k ms,
    group_findings [VDict [("category", VBool true)]; VDict [("category", VInt 1)]] []
    = Ok by_category
    ∧ (k, ms) ∈ by_category
    ∧ VDict [("category", VBool true)] ∈ ms ∧ VDict [("category", VInt 1)] ∈ ms.
Proof.
  destruct (same_group_iff_equal_category
              [VDict [("category", VBool true)]; VDict [("category", VInt 1)]]
              (VDict [("category", VBool true)]) (VDict [("category", VInt 1)]))
    as (g & Hg & Hiff).
  - repeat constructor.
  - repeat constructor.
  - repeat constructor.
  - destruct (proj2 Hiff eq_refl) as (k & ms & Hk & H1 & H2).
    exists g, k, ms. split_and!; [exact Hg|exact Hk|exact H1|exact H2].
Defined.



(** ** What a section shows and what it leaves out *)

(** X10: the findings a section shows are the most severe of the group: the
    group splits into the findings shown, five at most, and the findings left
    out, as many as the remainder line counts, and no finding left out has a
    smaller rank than a finding shown. *)
Theorem shown_findings_most_severe (category : pyval) (category_findings : list pyval) :
  Forall (λ f, wf_finding f = true) category_findings →
  ∃ shown hidden : list pyval,
    category_lines category category_findings
    = Ok (CategoryHeader category
          :: (FindingLine <$> shown)
          ++ (if 5 <? length category_findings
              then [MoreLine (length hidden) category] else []))
    ∧ shown ++ hidden ≡ₚ category_findings
    ∧ length shown = length category_findings `min` 5
    ∧ ∀ a b, a ∈ shown → b ∈ hidden → rank_of a ≤ rank_of b.
Proof.
  intros Hwf.
  exists (take 5 (sorted_by_rank category_findings)),
         (drop 5 (sorted_by_rank category_findings)).
  split_and!.
  - rewrite category_lines_wf by done. unfold section_body.
    by rewrite length_drop, sorted_by_rank_length.
  - rewrite take_drop. apply sorted_by_rank_perm.
  - rewrite length_take, sorted_by_rank_length. lia.
  - intros a b Ha Hb.
    eapply (StronglySorted_app_1_elem_of (λ a b, rank_of a ≤ rank_of b)); [|done..].
    rewrite take_drop. apply sorted_by_rank_sorted.
Qed.

Lemma shown_findings_most_severe_witness :
  ∃ shown hidden : list pyval,
    shown ++ hidden ≡ₚ six_iam ∧ length shown = 5.
Proof.
  destruct (shown_findings_most_severe (VStr "IAM") six_iam)
    as (shown & hidden & _ & Hp & Hl & _).
  - repeat constructor.
  - exists shown, hidden. split; [exact Hp|exact Hl].
Defined.

(** X12: the order [sorted] leaves a group in is fixed by the ranks and the
    order of the input: a list that is sorted by rank and holds the findings of
    each rank in the order of the group is the result of the sort; and sorting
    the result again changes nothing. *)
Theorem py_sorted_determined (ms s : list pyval) :
  Forall (λ f, wf_finding f = true) ms →
  StronglySorted (λ a b, rank_of a ≤ rank_of b) s →
  (∀ n, List.filter (λ f, rank_of f =? n) s = List.filter (λ f, rank_of f =? n) ms) →
  py_sorted sort_key ms = Ok s ∧ py_sorted sort_key s = Ok s.
Proof.
  intros Hwf Hs Hst.
  pose proof (sorted_by_rank_unique ms s Hs Hst) as ->. split.
  - by apply py_sorted_wf.
  - rewrite py_sorted_wf by by rewrite sorted_by_rank_perm.
    f_equal. symmetry. by apply sorted_by_rank_unique.
Qed.

Lemma py_sorted_determined_witness :
  py_sorted sort_key
    [finding_of "Low" "IAM" "a"; finding_of "Critical" "IAM" "b"; finding_of "Low" "IAM" "d"]
  = Ok [finding_of "Critical" "IAM" "b"; finding_of "Low" "IAM" "a"; finding_of "Low" "IAM" "d"].
Proof.
  apply (py_sorted_determined
           [finding_of "Low" "IAM" "a"; finding_of "Critical" "IAM" "b";
            finding_of "Low" "IAM" "d"]).
  - repeat constructor.
  - repeat constructor; vm_compute; lia.
  - intros n. vm_compute.
    destruct n as [|[|[|[|n]]]]; reflexivity.
Defined.

(** ** The header of the prompt *)

Section header.

Lemma filter_length_perm {A} (p : A → bool) (l l' : list A) :
  l ≡ₚ l' → length (List.filter p l) = length (List.filter p l').
Proof.
  induction 1 as [|x l l' _ IH|x y l|l l' l'' _ IH1 _ IH2]; simpl.
  - done.
  - destruct (p x); simpl; by rewrite IH.
  - by destruct (p x), (p y).
  - by rewrite IH1.
Qed.

Lemma filter_length_le {A} (p : A → bool) (l : list A) :
  length (List.filter p l) ≤ length l.
Proof. induction l as [|x l IH]; simpl; [done|]. destruct (p x); simpl; lia. Qed.

Lemma filter_length_all {A} (p : A → bool) (l : list A) :
  length (List.filter p l) = length l ↔ Forall (λ x, p x = true) l.
Proof.
  induction l as [|x l IH]; simpl; [by split|].
  pose proof (filter_length_le p l). destruct (p x) eqn:E; simpl.
  - rewrite Forall_cons. split.
    + intros [= H']. split; [done|]. by apply IH.
    + intros [_ H']. f_equal. by apply IH.
  - split; [lia|]. intros [? _]%Forall_cons. congruence.
Qed.

End header.

(** X11: the counts under the title do not depend on the order of the
    findings; they add up to the total the prompt prints when every finding has
    one of the five severities, and to less when one has not. *)
Theorem severity_counts_order_and_total (findings findings' : list pyval) :
  Forall (λ f, wf_finding f = true) findings →
  findings ≡ₚ findings' →
  count_severities findings' severity_counts_init
  = count_severities findings severity_counts_init
  ∧ count_of "Critical" findings + count_of "High" findings
    + count_of "Medium" findings + count_of "Low" findings
    + count_of "Informational" findings ≤ length findings
  ∧ (count_of "Critical" findings + count_of "High" findings
     + count_of "Medium" findings + count_of "Low" findings
     + count_of "Informational" findings = length findings
     ↔ Forall (λ f, recognized f = true) findings).
Proof.
  intros Hwf Hp. split_and!.
  - assert (Forall (λ f, wf_finding f = true) findings') as Hwf' by by rewrite <-Hp.
    rewrite !count_severities_init by done. unfold count_of.
    by rewrite !(filter_length_perm _ _ _ Hp).
  - unfold count_of. rewrite recognized_count. apply filter_length_le.
  - unfold count_of. rewrite recognized_count. apply filter_length_all.
Qed.

Lemma severity_counts_order_and_total_witness :
  count_severities (reverse mixed_findings) severity_counts_init
  = count_severities mixed_findings severity_counts_init.
Proof.
  apply (severity_counts_order_and_total mixed_findings (reverse mixed_findings)).
  - repeat constructor.
  - symmetry. apply reverse_Permutation.
Defined.

(** ** The keys the prompt reads *)

Section same_fields.

Lemma same_fields_lookup d d' key :
  same_fields (VDict d) (VDict d') → key ∈ prompt_fields →
  alist_lookup key d = alist_lookup key d'.
Proof. intros H. apply H. Qed.

Lemma same_fields_wf f f' : same_fields f f' → wf_finding f = wf_finding f'.
Proof.
  destruct f as [| | | | |d], f' as [| | | | |d']; try done. intros H. simpl.
  rewrite (same_fields_lookup d d' "severity" H), (same_fields_lookup d d' "category" H);
    [done|unfold prompt_fields..].
  - apply list_elem_of_further, list_elem_of_here.
  - apply list_elem_of_here.
Qed.

Lemma same_fields_category f f' : same_fields f f' → category_of f = category_of f'.
Proof.
  destruct f as [| | | | |d], f' as [| | | | |d']; try done. intros H.
  rewrite !category_of_dict, (same_fields_lookup d d' "category" H); [done|].
  apply list_elem_of_further, list_elem_of_here.
Qed.

Lemma same_fields_rank f f' : same_fields f f' → rank_of f = rank_of f'.
Proof.
  destruct f as [| | | | |d], f' as [| | | | |d']; try done. intros H.
  rewrite !rank_of_dict, (same_fields_lookup d d' "severity" H); [done|].
  apply list_elem_of_here.
Qed.

Lemma same_fields_severity label f f' :
  same_fields f f' → has_severity label f = has_severity label f'.
Proof.
  destruct f as [| | | | |d], f' as [| | | | |d']; try done. intros H. simpl.
  rewrite (same_fields_lookup d d' "severity" H); [done|]. apply list_elem_of_here.
Qed.

Lemma same_line_text l l' : same_line l l' → line_text l = line_text l'.
Proof.
  destruct l as [c|f|n c], l' as [c'|f'|n' c']; try done.
  - by intros ->.
  - destruct f as [| | | | |d], f' as [| | | | |d']; try done. intros H.
    cbn [line_text py_get mbind result_bind].
    rewrite (same_fields_lookup d d' "severity" H),
      (same_fields_lookup d d' "description" H),
      (same_fields_lookup d d' "resource_type" H),
      (same_fields_lookup d d' "resource_id" H); [done|unfold prompt_fields..].
    + do 4 apply list_elem_of_further. apply list_elem_of_here.
    + do 3 apply list_elem_of_further. apply list_elem_of_here.
    + do 2 apply list_elem_of_further. apply list_elem_of_here.
    + apply list_elem_of_here.
  - by intros [-> ->].
Qed.

Lemma Forall2_filter_agree {A} (R : A → A → Prop) (p : A → bool) (l l' : list A) :
  (∀ x y, R x y → p x = p y) →
  Forall2 R l l' → Forall2 R (List.filter p l) (List.filter p l').
Proof.
  intros Hp. induction 1 as [|x y l l' Hxy _ IH]; simpl; [constructor|].
  rewrite <-(Hp x y Hxy). destruct (p x); [by constructor|done].
Qed.

Lemma Forall2_filter_length {A} (R : A → A → Prop) (p : A → bool) (l l' : list A) :
  (∀ x y, R x y → p x = p y) →
  Forall2 R l l' → length (List.filter p l) = length (List.filter p l').
Proof. intros Hp H. eapply Forall2_length, Forall2_filter_agree; done. Qed.

Lemma Forall2_fmap_agree {A B} (R : A → A → Prop) (f : A → B) (l l' : list A) :
  (∀ x y, R x y → f x = f y) → Forall2 R l l' → f <$> l = f <$> l'.
Proof.
  intros Hf. induction 1 as [|x y l l' Hxy _ IH]; csimpl; [done|].
  by rewrite (Hf x y Hxy), IH.
Qed.

(** The sort moves related entries alike: it looks at the keys only. *)
Lemma insert_by_key_related {A} (R : A → A → Prop) (x x' : nat * A) l l' :
  x.1 = x'.1 ∧ R x.2 x'.2 →
  Forall2 (λ p p', p.1 = p'.1 ∧ R p.2 p'.2) l l' →
  Forall2 (λ p p', p.1 = p'.1 ∧ R p.2 p'.2) (insert_by_key x l) (insert_by_key x' l').
Proof.
  intros Hx. induction 1 as [|y y' l l' Hy Hl IH]; simpl.
  - constructor; [done|constructor].
  - destruct Hx as [Hx1 Hx2], Hy as [Hy1 Hy2]. rewrite <-Hx1, <-Hy1.
    destruct (x.1 <=? y.1).
    + constructor; [done|]. by constructor.
    + by constructor.
Qed.

Lemma stable_sort_related {A} (R : A → A → Prop) (l l' : list (nat * A)) :
  Forall2 (λ p p', p.1 = p'.1 ∧ R p.2 p'.2) l l' →
  Forall2 (λ p p', p.1 = p'.1 ∧ R p.2 p'.2) (stable_sort l) (stable_sort l').
Proof.
  induction 1 as [|x x' l l' Hx _ IH]; simpl; [constructor|].
  by apply insert_by_key_related.
Qed.

Lemma sorted_by_rank_related ms ms' :
  Forall2 same_fields ms ms' →
  Forall2 same_fields (sorted_by_rank ms) (sorted_by_rank ms').
Proof.
  intros H. unfold sorted_by_rank. rewrite !zip_rank.
  apply Forall2_fmap, (Forall2_impl (λ p p', p.1 = p'.1 ∧ same_fields p.2 p'.2));
    [|by intros ?? [_ ?]].
  apply stable_sort_related, Forall2_fmap.
  eapply Forall2_impl; [exact H|]. intros f f' Hf. simpl.
  split; [by apply same_fields_rank|done].
Qed.

Lemma section_body_related k ms ms' :
  Forall2 same_fields ms ms' →
  Forall2 same_line (section_body k ms) (section_body k ms').
Proof.
  intros H. unfold section_body. rewrite <-(Forall2_length _ _ _ H).
  apply Forall2_app.
  - apply Forall2_fmap, Forall2_take.
    eapply Forall2_impl; [by apply sorted_by_rank_related|]. done.
  - destruct (5 <? length ms); by repeat constructor.
Qed.

Lemma lines_of_related fs fs' :
  Forall2 same_fields fs fs' →
  Forall2 same_line (lines_of (category_groups fs)) (lines_of (category_groups fs')).
Proof.
  intros H. unfold lines_of, category_groups.
  rewrite <-(Forall2_fmap_agree _ category_of _ _ same_fields_category H).
  rewrite <-!list_fmap_compose.
  induction (first_occurrences (category_of <$> fs)) as [|k ks IH]; csimpl; [constructor|].
  constructor; [done|]. apply Forall2_app; [|done].
  apply section_body_related. unfold members.
  apply Forall2_filter_agree; [|done].
  intros f f' Hf. by rewrite (same_fields_category f f' Hf).
Qed.

Lemma result_mapM_related {X Y} (R : X → X → Prop) (f : X → result Y) (l l' : list X) :
  (∀ x y, R x y → f x = f y) → Forall2 R l l' → result_mapM f l = result_mapM f l'.
Proof.
  intros Hf. induction 1 as [|x y l l' Hxy _ IH]; csimpl; [done|].
  by rewrite (Hf x y Hxy), IH.
Qed.

Lemma same_fields_Forall_wf fs fs' :
  Forall2 same_fields fs fs' →
  Forall (λ f, wf_finding f = true) fs → Forall (λ f, wf_finding f = true) fs'.
Proof.
  induction 1 as [|f f' fs fs' Hf _ IH]; [done|].
  intros [Hw Hwf]%Forall_cons. constructor; [|by apply IH].
  by rewrite <-(same_fields_wf f f' Hf).
Qed.

End same_fields.

(** X13: the prompt reads five keys of a finding and no other: two lists of
    dict findings that agree, finding by finding, on [severity], [category],
    [description], [resource_type] and [resource_id] give the same prompt,
    whatever else the findings hold. *)
Theorem prompt_reads_five_keys (findings findings' : list pyval) (prompt : string) :
  Forall2 same_fields findings findings' →
  prepare_prompt findings = Ok prompt →
  prepare_prompt findings' = Ok prompt.
Proof.
  intros H Hp.
  assert (Forall (λ f, wf_finding f = true) findings) as Hwf.
  { apply prepare_prompt_ok_iff. by eexists. }
  pose proof (same_fields_Forall_wf _ _ H Hwf) as Hwf'.
  destruct (prepare_prompt_wf findings Hwf) as (texts & Ht & _ & Hp1).
  destruct (prepare_prompt_wf findings' Hwf') as (texts' & Ht' & _ & Hp2).
  rewrite Hp1 in Hp. rewrite Hp2, <-Hp. clear Hp Hp1 Hp2.
  rewrite (result_mapM_related same_line line_text _ _ same_line_text
             (lines_of_related _ _ H)) in Ht.
  rewrite Ht in Ht'. injection Ht' as <-.
  unfold count_of.
  rewrite <-(Forall2_length _ _ _ H).
  by rewrite <-!(Forall2_filter_length same_fields _ _ _
                   (λ f f', same_fields_severity _ f f') H).
Qed.

Lemma prompt_reads_five_keys_witness :
  ∃ prompt,
    prepare_prompt [VDict [("severity", VStr "High"); ("category", VStr "S3")]] = Ok prompt
    ∧ prepare_prompt [VDict [("account_id", VStr "123456789012");
                             ("severity", VStr "High"); ("category", VStr "S3")]]
      = Ok prompt.
Proof.
  eexists. split; [reflexivity|].
  apply (prompt_reads_five_keys
           [VDict [("severity", VStr "High"); ("category", VStr "S3")]]).
  - constructor; [|constructor]. intros key Hkey. unfold prompt_fields in Hkey.
    rewrite !elem_of_cons, elem_of_nil in Hkey.
    destruct Hkey as [->|[->|[->|[->|[->|[]]]]]]; reflexivity.
  - reflexivity.
Defined.

(** ** The request *)

Section request.

Lemma append_inj_l s t t' : s +:+ t = s +:+ t' → t = t'.
Proof.
  induction s as [|c s IH]; [done|]. rewrite !app_String. intros [= H]. by apply IH.
Qed.

Lemma length_append s t : String.length (s +:+ t) = String.length s + String.length t.
Proof. induction s as [|c s IH]; [done|]. rewrite app_String. simpl. by rewrite IH. Qed.

Lemma append_inj_r s s' t : s +:+ t = s' +:+ t → s = s'.
Proof.
  revert s'. induction s as [|c s IH]; intros [|c' s'] H.
  - done.
  - apply (f_equal String.length) in H. rewrite app_Empty, !length_append in H.
    simpl in H. lia.
  - apply (f_equal String.length) in H. rewrite app_Empty, !length_append in H.
    simpl in H. lia.
  - rewrite !app_String in H. injection H as -> H. f_equal. by apply IH.
Qed.

Lemma user_message_inj prompt prompt' :
  user_message prompt = user_message prompt' → prompt = prompt'.
Proof.
  unfold user_message. intros H.
  do 4 apply append_inj_l in H. by apply append_inj_r in H.
Qed.

End request.

(** X14: the request holds the prompt in full: two prompts that differ give two
    requests that differ, so the prompt can be read back from what the invoker
    sends. *)
Theorem build_request_inj (prompt prompt' : string) :
  build_request prompt = build_request prompt' → prompt = prompt'.
Proof.
  intros H. apply user_message_inj.
  exact (f_equal (λ r, match messages r with
                       | (_, content) :: _ => content
                       | [] => EmptyString
                       end) H).
Qed.

Lemma build_request_inj_witness : "Total findings: 0" = "Total findings: 0".
Proof.
  apply (build_request_inj "Total findings: 0" "Total findings: 0"). reflexivity.
Defined.

(** X15: the entry point uses the client for one call, with the request built
    from the prompt: on findings the prompt builder accepts, the narrative is
    the fallback when that call raises and what the extractor gives for its
    response otherwise, so two clients that answer this one request alike give
    the same narrative. *)
Theorem get_ai_analysis_one_call (bedrock bedrock' : client) (findings : list pyval)
    (prompt : string) :
  prepare_prompt findings = Ok prompt →
  get_ai_analysis bedrock findings
  = match bedrock (request_for prompt) with
    | Ok response => extract_narrative_claude response
    | Raise _ => Ok generate_fallback_narrative
    end
  ∧ (bedrock (request_for prompt) = bedrock' (request_for prompt) →
     get_ai_analysis bedrock findings = get_ai_analysis bedrock' findings).
Proof.
  intros Hp.
  assert (∀ c : client, get_ai_analysis c findings
            = match c (request_for prompt) with
              | Ok response => extract_narrative_claude response
              | Raise _ => Ok generate_fallback_narrative
              end) as Hc.
  { intros c. unfold get_ai_analysis, invoke_claude_model. rewrite Hp.
    cbn [mbind result_bind]. fold (request_for prompt).
    destruct (c (request_for prompt)) as [response|e]; simpl; [|done].
    by destruct (extract_total response) as [n ->]. }
  split; [apply Hc|]. intros H. by rewrite !Hc, H.
Qed.

Lemma get_ai_analysis_one_call_witness :
  get_ai_analysis (λ _, Ok hello_world_response) six_iam
  = get_ai_analysis
      (λ args, if bool_decide (modelId args = model_id)
               then Ok hello_world_response else Raise KeyError) six_iam.
Proof.
  destruct (prepare_prompt six_iam) as [prompt|e] eqn:Hp.
  - apply (proj2 (get_ai_analysis_one_call _ _ six_iam prompt Hp)). reflexivity.
  - vm_compute in Hp. discriminate Hp.
Defined.
